(** * Anime review site: storage, validation, aggregation and ranking

    A shallow embedding of [backend/database.py] and [backend/main.py].

    - The SQLite file is a value of type [database]: the two tables of
      [init_db] as lists of rows in rowid order, together with the two
      AUTOINCREMENT counters of [sqlite_sequence].
    - A connection carries the one per-connection setting that matters
      here, [PRAGMA foreign_keys]; [get_db] issues no PRAGMA, so the
      connections of every handler keep SQLite's default, off.
    - A handler is a function from the database before the request to a
      [response] and the database after it.
    - [rating] is a REAL column and a Python float.  A rating is the
      rational ([Q]) that is the exact value of the stored double.  The
      rows of the handlers carry AVG evaluated in exact arithmetic
      ([Sql.avg]); [Sql.avg_real] is AVG as SQLite evaluates it, in
      IEEE 754 double precision, and [average_rating_real] and
      [get_stats_real] are the mean columns and the leaderboard with
      the values and the order that a client receives.
    - A rating is a finite number; the NaN and the infinities that
      Python's JSON decoder also accepts are not modelled.
    - An id is a Python int of any size; binding one that does not fit
      SQLite's 64-bit INTEGER raises OverflowError ([Sql.bindable]).
    - Connections are not modelled beyond their foreign-key setting: a
      handler that ends in an uncaught exception does not close its
      connection, and the lock that such a connection may keep on the
      file is outside the [database] value.
    - [CURRENT_TIMESTAMP] is an explicit argument of the two inserting
      handlers.
    - ORDER BY is a stable insertion sort.  SQLite leaves the order of
      rows with equal keys open, as it does the row a bare column of a
      GROUP BY query is read from; no statement below depends on the
      first, and the second is a parameter of [get_stats]. *)

From Stdlib Require Import List String Ascii ZArith QArith Bool Lia Lqa.
From Stdlib Require Import Sorting.Sorted Sorting.Permutation.
From Stdlib Require Import Floats.SpecFloat.
Import ListNotations.

Local Open Scope string_scope.
Local Open Scope Z_scope.

(** ** Small helpers *)

Definition Qltb (a b : Q) : bool := negb (Qle_bool b a).

Definition opt_string_eqb (a b : option string) : bool :=
  match a, b with
  | Some x, Some y => String.eqb x y
  | None, None => true
  | _, _ => false
  end.

(** Python's [x in ['watched', 'planning']] and SQL's
    [status IN ('watched', 'planning')]. *)
Definition status_allowed (s : string) : bool :=
  String.eqb s "watched" || String.eqb s "planning".

(** Python's [v < 0 or v > 10]; its negation is the CHECK constraint
    [rating >= 0 AND rating <= 10]. *)
Definition rating_out_of_range (v : Q) : bool :=
  Qltb v 0 || Qltb 10 v.

(** ** Double precision

    SQLite's REAL and Python's float are IEEE 754 binary64 numbers.
    [Real] is their arithmetic, from the standard library's
    specification of floating-point numbers: 53 bits of precision,
    exponents below 1024, rounding to nearest even. *)

Module Real.

Definition t : Type := spec_float.

Definition add (x y : t) : t := SFadd 53 1024 x y.

Definition div (x y : t) : t := SFdiv 53 1024 x y.

(** The double nearest to an integer. *)
Definition of_Z (n : Z) : t := binary_normalize 53 1024 n 0 false.

(** The double of a rating.  For the value of a double (numerator a
    53-bit integer, denominator a power of two) it is that double, the
    quotient being exact; for a short decimal such as 1/10 it is the
    nearest double, what Python reads the literal as. *)
Definition of_Q (q : Q) : t := div (of_Z (Qnum q)) (of_Z (Zpos (Qden q))).

(** The exact value of a finite double. *)
Definition value (x : t) : option Q :=
  match x with
  | S754_zero _ => Some 0%Q
  | S754_finite s m e =>
      let n := if s then Zneg m else Zpos m in
      Some (match e with
            | Zneg k => n # (2 ^ k)
            | _ => inject_Z (n * 2 ^ e)
            end)
  | _ => None
  end.

Definition is_nan (x : t) : bool :=
  match x with
  | S754_nan => true
  | _ => false
  end.

(** [x <= y]; false when either is NaN. *)
Definition leb (x y : t) : bool := SFleb x y.

End Real.

(** ** The storage collaborator (database.py and SQLite) *)

Definition timestamp := Z.

Record anime_row := mk_anime_row {
  a_id : Z;
  a_title : string;
  a_description : option string;
  a_created_at : timestamp
}.

Record review_row := mk_review_row {
  r_id : Z;
  r_anime_id : Z;
  r_user_name : string;
  r_rating : Q;
  r_review_text : option string;
  r_status : string;
  r_created_at : timestamp
}.

Record database := mk_database {
  anime : list anime_row;
  reviews : list review_row;
  seq_anime : Z;
  seq_reviews : Z
}.

Record connection := mk_connection {
  foreign_keys : bool
}.

Inductive sql_result (A : Type) : Type :=
| SqlOk (a : A)
| IntegrityError (msg : string).
Arguments SqlOk {A} a.
Arguments IntegrityError {A} msg.

Definition empty_database : database :=
  {| anime := []; reviews := []; seq_anime := 0; seq_reviews := 0 |}.

(** [init_db]: CREATE TABLE IF NOT EXISTS on the file at DB_PATH; a
    missing file becomes a database with two empty tables. *)
Definition init_db (file : option database) : database :=
  match file with
  | Some db => db
  | None => empty_database
  end.

(** [get_db]: [aiosqlite.connect(DB_PATH)] and a row factory; no PRAGMA
    is executed, so foreign-key enforcement stays at SQLite's default. *)
Definition get_db : connection := {| foreign_keys := false |}.

Module Sql.

(** AUTOINCREMENT: one more than the largest rowid ever used. *)
Definition next_rowid (seq : Z) (ids : list Z) : Z :=
  fold_right Z.max seq ids + 1.

Definition select_anime_by_id (id : Z) (db : database) : option anime_row :=
  find (fun a => a_id a =? id) (anime db).

Definition select_review_by_id (id : Z) (db : database) : option review_row :=
  find (fun r => r_id r =? id) (reviews db).

Definition title_taken (t : string) (db : database) : bool :=
  existsb (fun a => String.eqb (a_title a) t) (anime db).

(** INSERT INTO anime (title, description) VALUES (?, ?) *)
Definition insert_anime (now : timestamp) (t : string) (d : option string)
    (db : database) : sql_result (Z * database) :=
  if title_taken t db then IntegrityError "UNIQUE constraint failed: anime.title"
  else
    let id := next_rowid (seq_anime db) (map a_id (anime db)) in
    SqlOk (id,
           {| anime := anime db ++ [mk_anime_row id t d now];
              reviews := reviews db;
              seq_anime := id;
              seq_reviews := seq_reviews db |}).

(** DELETE FROM anime WHERE id=?  The ON DELETE CASCADE action of
    reviews.anime_id runs only on a connection with foreign keys on. *)
Definition delete_anime (conn : connection) (id : Z) (db : database) : database :=
  {| anime := filter (fun a => negb (a_id a =? id)) (anime db);
     reviews :=
       if foreign_keys conn && existsb (fun a => a_id a =? id) (anime db)
       then filter (fun r => negb (r_anime_id r =? id)) (reviews db)
       else reviews db;
     seq_anime := seq_anime db;
     seq_reviews := seq_reviews db |}.

(** The two CHECK constraints of the reviews table. *)
Definition check_review (r : review_row) : option string :=
  if rating_out_of_range (r_rating r)
  then Some "CHECK constraint failed: rating >= 0 AND rating <= 10"
  else if negb (status_allowed (r_status r))
  then Some "CHECK constraint failed: status IN ('watched', 'planning')"
  else None.

(** INSERT INTO reviews (anime_id, user_name, rating, review_text, status)
    VALUES (?, ?, ?, ?, ?) *)
Definition insert_review (conn : connection) (now : timestamp)
    (aid : Z) (user : string) (rating : Q) (text : option string)
    (status : string) (db : database) : sql_result (Z * database) :=
  let id := next_rowid (seq_reviews db) (map r_id (reviews db)) in
  let r := mk_review_row id aid user rating text status now in
  match check_review r with
  | Some msg => IntegrityError msg
  | None =>
    if foreign_keys conn && negb (existsb (fun a => a_id a =? aid) (anime db))
    then IntegrityError "FOREIGN KEY constraint failed"
    else SqlOk (id,
                {| anime := anime db;
                   reviews := reviews db ++ [r];
                   seq_anime := seq_anime db;
                   seq_reviews := id |})
  end.

(** One [column = ?] of an UPDATE with the value bound to it. *)
Inductive assignment : Type :=
| SetRating (v : Q)
| SetReviewText (v : string)
| SetStatus (v : string).

Definition assign (r : review_row) (s : assignment) : review_row :=
  match s with
  | SetRating v =>
      mk_review_row (r_id r) (r_anime_id r) (r_user_name r) v
                    (r_review_text r) (r_status r) (r_created_at r)
  | SetReviewText v =>
      mk_review_row (r_id r) (r_anime_id r) (r_user_name r) (r_rating r)
                    (Some v) (r_status r) (r_created_at r)
  | SetStatus v =>
      mk_review_row (r_id r) (r_anime_id r) (r_user_name r) (r_rating r)
                    (r_review_text r) v (r_created_at r)
  end.

Fixpoint update_rows (sets : list assignment) (id : Z) (rs : list review_row)
    : sql_result (list review_row) :=
  match rs with
  | [] => SqlOk []
  | r :: rest =>
    if r_id r =? id then
      let r' := fold_left assign sets r in
      match check_review r' with
      | Some msg => IntegrityError msg
      | None =>
        match update_rows sets id rest with
        | SqlOk rest' => SqlOk (r' :: rest')
        | IntegrityError msg => IntegrityError msg
        end
      end
    else
      match update_rows sets id rest with
      | SqlOk rest' => SqlOk (r :: rest')
      | IntegrityError msg => IntegrityError msg
      end
  end.

(** UPDATE reviews SET ... WHERE id = ?  A failed statement changes
    nothing. *)
Definition update_review (sets : list assignment) (id : Z) (db : database)
    : sql_result database :=
  match update_rows sets id (reviews db) with
  | SqlOk rs =>
      SqlOk {| anime := anime db; reviews := rs;
               seq_anime := seq_anime db; seq_reviews := seq_reviews db |}
  | IntegrityError msg => IntegrityError msg
  end.

(** DELETE FROM reviews WHERE id=? *)
Definition delete_review (id : Z) (db : database) : database :=
  {| anime := anime db;
     reviews := filter (fun r => negb (r_id r =? id)) (reviews db);
     seq_anime := seq_anime db;
     seq_reviews := seq_reviews db |}.

(** *** Binding a Python int to a [?]

    sqlite3 converts the int to SQLite's 64-bit INTEGER when the
    statement is executed and raises OverflowError when it does not
    fit; the statement then does not run.  The bounds are -2^63 and
    2^63. *)
Definition fits_int64 (n : Z) : bool :=
  (- 9223372036854775808 <=? n) && (n <? 9223372036854775808).

(** The ids that a table holds are 64-bit INTEGERs of the file, whatever
    their value in the model; [ids] are the ids of the table that the
    statement addresses.  On a table whose ids all fit (every table
    that a file can hold) this is [fits_int64]. *)
Definition bindable (n : Z) (ids : list Z) : bool :=
  fits_int64 n || existsb (Z.eqb n) ids.

(** *** Query building blocks *)

(** ORDER BY: insertion of each row before the first row it may
    precede; [before x y] says that [x] may come before [y]. *)
Fixpoint insert_by {A : Type} (before : A -> A -> bool) (x : A) (l : list A)
    : list A :=
  match l with
  | [] => [x]
  | y :: l' => if before x y then x :: l else y :: insert_by before x l'
  end.

Definition order_by {A : Type} (before : A -> A -> bool) (l : list A) : list A :=
  fold_right (insert_by before) [] l.

(** AVG and COUNT skip NULL; AVG of no value is NULL.  [total] and
    [avg] are the sum and the mean in exact arithmetic. *)
Definition non_null {A : Type} (l : list (option A)) : list A :=
  flat_map (fun o => match o with Some a => [a] | None => [] end) l.

Definition total (l : list Q) : Q := fold_right Qplus 0%Q l.

Definition count {A : Type} (l : list (option A)) : Z :=
  Z.of_nat (List.length (non_null l)).

Definition avg (l : list (option Q)) : option Q :=
  match non_null l with
  | [] => None
  | vs => Some (total vs / inject_Z (Z.of_nat (List.length vs)))%Q
  end.

(** AVG as SQLite evaluates it on REAL values: the sum is a double that
    starts at 0.0 and takes the values one by one in row order (the
    accumulator of the versions before 3.44, which sum without
    compensation); it is divided by the number of values, and a NaN is
    reported as NULL. *)
Definition total_real (l : list Q) : Real.t :=
  fold_left (fun sum v => Real.add sum (Real.of_Q v)) l (Real.of_Z 0).

Definition null_if_nan (x : Real.t) : option Real.t :=
  if Real.is_nan x then None else Some x.

Definition avg_real (l : list (option Q)) : option Real.t :=
  match non_null l with
  | [] => None
  | vs => null_if_nan (Real.div (total_real vs)
                                (Real.of_Z (Z.of_nat (List.length vs))))
  end.

(** LOWER: the 26 upper-case ASCII letters; every other byte is kept. *)
Definition lower_ascii (c : ascii) : ascii :=
  let n := nat_of_ascii c in
  if ((65 <=? n) && (n <=? 90))%nat then ascii_of_nat (n + 32) else c.

Fixpoint lower (s : string) : string :=
  match s with
  | EmptyString => EmptyString
  | String c s' => String (lower_ascii c) (lower s')
  end.

Definition is_space (c : ascii) : bool := Ascii.eqb c " "%char.

Fixpoint ltrim (s : string) : string :=
  match s with
  | EmptyString => EmptyString
  | String c s' => if is_space c then ltrim s' else s
  end.

Fixpoint rtrim (s : string) : string :=
  match s with
  | EmptyString => EmptyString
  | String c s' =>
    match rtrim s' with
    | EmptyString => if is_space c then EmptyString else String c EmptyString
    | t => String c t
    end
  end.

(** TRIM(X): spaces removed from both ends. *)
Definition trim (s : string) : string := rtrim (ltrim s).

End Sql.

(** ** Request and response models (pydantic classes of main.py)

    A request body is modelled after JSON decoding and type coercion: a
    declared field is [None] when its key is missing and [Some v] with a
    value of the declared type otherwise.  Keys that the model does not
    declare are kept in [others]; pydantic ignores them. *)

Definition validation_error : Type := (string * string)%type.

Module AnimeCreate.

Record t := mk { title : string }.

Record body := mk_body {
  body_title : option string;
  others : list (string * string)
}.

Definition parse (b : body) : list validation_error + t :=
  match body_title b with
  | Some s => inr {| title := s |}
  | None => inl [("title", "field required")]
  end.

End AnimeCreate.

Module AnimeResponse.

Record t := mk {
  id : Z;
  title : string;
  description : option string;
  average_rating : option Q;
  total_reviews : Z;
  latest_review_text : option string;
  latest_review_user : option string;
  created_at : timestamp
}.

End AnimeResponse.

Module ReviewCreate.

Record t := mk {
  anime_id : Z;
  user_name : string;
  rating : Q;
  review_text : option string;
  status : string
}.

Record body := mk_body {
  body_anime_id : option Z;
  body_user_name : option string;
  body_rating : option Q;
  body_review_text : option string;
  body_status : option string
}.

Definition validate_rating (v : Q) : string + Q :=
  if rating_out_of_range v then inl "Rating must be between 0 and 10"
  else inr v.

Definition validate_status (v : string) : string + string :=
  if negb (status_allowed v) then inl "Status must be watched or planning"
  else inr v.

(** [values_status] is [values.get('status')]. *)
Definition validate_rating_with_status (v : Q) (values_status : option string)
    : string + Q :=
  if opt_string_eqb values_status (Some "planning") && Qltb 0 v
  then inl "Cannot rate anime with planning status"
  else inr v.

(** One field: a missing required key, or the validators in order. *)
Definition field {A : Type} (loc : string) (raw : option A)
    (validators : A -> string + A) : list validation_error + A :=
  match raw with
  | None => inl [(loc, "field required")]
  | Some v =>
    match validators v with
    | inl msg => inl [(loc, msg)]
    | inr v' => inr v'
    end
  end.

Definition errors_of {A : Type} (r : list validation_error + A)
    : list validation_error :=
  match r with inl e => e | inr _ => [] end.

(** Fields are validated in declaration order and every error is
    collected.  [status] is declared after [rating], so while the
    validators of [rating] run [values] has no key 'status'. *)
Definition parse (b : body) : list validation_error + t :=
  let f_anime_id := field "anime_id" (body_anime_id b) inr in
  let f_user_name := field "user_name" (body_user_name b) inr in
  let f_rating :=
    field "rating" (body_rating b)
          (fun v => match validate_rating v with
                    | inl msg => inl msg
                    | inr v' => validate_rating_with_status v' None
                    end) in
  let f_status := field "status" (body_status b) validate_status in
  match f_anime_id, f_user_name, f_rating, f_status with
  | inr a, inr u, inr r, inr s =>
      inr {| anime_id := a; user_name := u; rating := r;
             review_text := body_review_text b; status := s |}
  | _, _, _, _ =>
      inl (errors_of f_anime_id ++ errors_of f_user_name
           ++ errors_of f_rating ++ errors_of f_status)%list
  end.

End ReviewCreate.

Module ReviewUpdate.

Record t := mk {
  rating : option Q;
  review_text : option string;
  status : option string
}.

Definition validate_rating (v : option Q) : string + option Q :=
  match v with
  | Some q =>
      if rating_out_of_range q then inl "Rating must be between 0 and 10"
      else inr v
  | None => inr v
  end.

(** The body has the three optional fields of the model itself. *)
Definition parse (b : t) : list validation_error + t :=
  match validate_rating (rating b) with
  | inl msg => inl [("rating", msg)]
  | inr v => inr {| rating := v; review_text := review_text b; status := status b |}
  end.

End ReviewUpdate.

Definition ReviewResponse : Type := review_row.

Module AnimeWithReviews.

Record t := mk {
  anime : AnimeResponse.t;
  reviews : list ReviewResponse
}.

End AnimeWithReviews.

(** The body [{"ok": True}] of the two delete handlers. *)
Record ok_body := mk_ok_body { ok : bool }.

(** What a request produces: the handler's return value (200), an
    [HTTPException] raised by the handler, the 422 that FastAPI answers
    when the body does not validate, or an exception that nothing
    catches (500). *)
Inductive response (A : Type) : Type :=
| Ok (body : A)
| HTTPException (status_code : Z) (detail : string)
| RequestValidationError (errors : list validation_error)
| Uncaught (exc : string).
Arguments Ok {A} body.
Arguments HTTPException {A} status_code detail.
Arguments RequestValidationError {A} errors.
Arguments Uncaught {A} exc.

(** Python's truth value of an [Optional[str]]. *)
Definition truthy (o : option string) : bool :=
  match o with
  | Some (String _ _) => true
  | _ => false
  end.

(** ** Handlers of main.py *)

Definition watched_rating (o : option review_row) : option Q :=
  match o with
  | Some r => if String.eqb (r_status r) "watched" then Some (r_rating r) else None
  | None => None
  end.

Definition reviews_of (aid : Z) (db : database) : list review_row :=
  filter (fun r => r_anime_id r =? aid) (reviews db).

(** FROM anime a LEFT JOIN reviews r ON a.id = r.anime_id, for one [a]. *)
Definition left_join_reviews (a : anime_row) (db : database)
    : list (option review_row) :=
  match filter (fun r => a_id a =? r_anime_id r) (reviews db) with
  | [] => [None]
  | rs => map Some rs
  end.

(** SELECT ... FROM reviews WHERE anime_id = ? ORDER BY created_at DESC *)
Definition reviews_latest_first (aid : Z) (db : database) : list review_row :=
  Sql.order_by (fun x y => r_created_at y <=? r_created_at x) (reviews_of aid db).

(** The select list shared by [get_all_anime] and [get_anime], evaluated
    on the group of [a] (GROUP BY a.id, the primary key). *)
Definition aggregate_row (db : database) (a : anime_row) : AnimeResponse.t :=
  let joined := left_join_reviews a db in
  {| AnimeResponse.id := a_id a;
     AnimeResponse.title := a_title a;
     AnimeResponse.description := a_description a;
     AnimeResponse.average_rating := Sql.avg (map watched_rating joined);
     AnimeResponse.total_reviews := Sql.count (map (option_map r_id) joined);
     AnimeResponse.latest_review_text :=
       match reviews_latest_first (a_id a) db with
       | [] => None
       | r :: _ => r_review_text r
       end;
     AnimeResponse.latest_review_user :=
       match reviews_latest_first (a_id a) db with
       | [] => None
       | r :: _ => Some (r_user_name r)
       end;
     AnimeResponse.created_at := a_created_at a |}.

(** The column [average_rating] of the same select list as SQLite
    evaluates it and the response carries it: AVG in double precision
    over the group of [a], the reviews of the join in rowid order. *)
Definition average_rating_real (db : database) (a : anime_row) : option Real.t :=
  Sql.avg_real (map watched_rating (left_join_reviews a db)).

Definition get_all_anime (db : database) : response (list AnimeResponse.t) * database :=
  let rows :=
    Sql.order_by
      (fun x y => AnimeResponse.created_at y <=? AnimeResponse.created_at x)
      (map (aggregate_row db) (anime db)) in
  (Ok rows, db).

Definition get_anime (db : database) (anime_id : Z)
    : response AnimeWithReviews.t * database :=
  if negb (Sql.bindable anime_id (map a_id (anime db)))
  then (Uncaught "OverflowError", db)
  else
  match Sql.select_anime_by_id anime_id db with
  | None => (HTTPException 404 "Anime not found", db)
  | Some a =>
    let anime_row := aggregate_row db a in
    let review_rows := reviews_latest_first anime_id db in
    (Ok {| AnimeWithReviews.anime := anime_row;
           AnimeWithReviews.reviews := review_rows |}, db)
  end.

Definition create_anime (now : timestamp) (db : database) (anime : AnimeCreate.t)
    : response AnimeResponse.t * database :=
  match Sql.insert_anime now (AnimeCreate.title anime) None db with
  | IntegrityError _ =>
      (HTTPException 400 "Anime with this title already exists", db)
  | SqlOk (anime_id, db') =>
    match Sql.select_anime_by_id anime_id db' with
    | Some row =>
        (Ok {| AnimeResponse.id := a_id row;
               AnimeResponse.title := a_title row;
               AnimeResponse.description := a_description row;
               AnimeResponse.average_rating := None;
               AnimeResponse.total_reviews := 0;
               AnimeResponse.latest_review_text := None;
               AnimeResponse.latest_review_user := None;
               AnimeResponse.created_at := a_created_at row |}, db')
    | None => (Uncaught "TypeError", db')
    end
  end.

Definition delete_anime (db : database) (anime_id : Z)
    : response ok_body * database :=
  let conn := get_db in
  if negb (Sql.bindable anime_id (map a_id (anime db)))
  then (Uncaught "OverflowError", db)
  else (Ok {| ok := true |}, Sql.delete_anime conn anime_id db).

Definition create_review (now : timestamp) (db : database) (review : ReviewCreate.t)
    : response ReviewResponse * database :=
  let conn := get_db in
  if negb (Sql.bindable (ReviewCreate.anime_id review) (map a_id (anime db)))
  then (Uncaught "OverflowError", db)
  else
  match Sql.select_anime_by_id (ReviewCreate.anime_id review) db with
  | None => (HTTPException 404 "Anime not found", db)
  | Some _ =>
    if String.eqb (ReviewCreate.status review) "planning"
       && Qltb 0 (ReviewCreate.rating review)
    then (HTTPException 400 "Cannot rate anime with planning status", db)
    else
      match Sql.insert_review conn now
              (ReviewCreate.anime_id review) (ReviewCreate.user_name review)
              (ReviewCreate.rating review) (ReviewCreate.review_text review)
              (ReviewCreate.status review) db with
      | IntegrityError msg => (Uncaught msg, db)
      | SqlOk (review_id, db') =>
        match Sql.select_review_by_id review_id db' with
        | Some row => (Ok row, db')
        | None => (Uncaught "TypeError", db')
        end
      end
  end.

(** The local variables [current_status], [new_rating] and
    [update_parts] of [update_review]. *)
Definition current_status (review_update : ReviewUpdate.t)
    (current_review : review_row) : string :=
  match ReviewUpdate.status review_update with
  | Some s => if truthy (Some s) then s else r_status current_review
  | None => r_status current_review
  end.

Definition new_rating (review_update : ReviewUpdate.t)
    (current_review : review_row) : Q :=
  match ReviewUpdate.rating review_update with
  | Some v => v
  | None => r_rating current_review
  end.

Definition update_parts (review_update : ReviewUpdate.t) : list Sql.assignment :=
  (match ReviewUpdate.rating review_update with
   | Some v => [Sql.SetRating v]
   | None => []
   end
   ++ match ReviewUpdate.review_text review_update with
      | Some v => [Sql.SetReviewText v]
      | None => []
      end
   ++ match ReviewUpdate.status review_update with
      | Some s => if truthy (Some s) then [Sql.SetStatus s] else []
      | None => []
      end)%list.

Definition update_review (db : database) (review_id : Z)
    (review_update : ReviewUpdate.t) : response ReviewResponse * database :=
  if negb (Sql.bindable review_id (map r_id (reviews db)))
  then (Uncaught "OverflowError", db)
  else
  match Sql.select_review_by_id review_id db with
  | None => (HTTPException 404 "Review not found", db)
  | Some current_review =>
    if String.eqb (current_status review_update current_review) "planning"
       && Qltb 0 (new_rating review_update current_review)
    then (HTTPException 400 "Cannot rate anime with planning status", db)
    else
      let updated :=
        match update_parts review_update with
        | [] => SqlOk db
        | parts => Sql.update_review parts review_id db
        end in
      match updated with
      | IntegrityError msg => (Uncaught msg, db)
      | SqlOk db' =>
        match Sql.select_review_by_id review_id db' with
        | Some row => (Ok row, db')
        | None => (Uncaught "TypeError", db')
        end
      end
  end.

Definition delete_review (db : database) (review_id : Z)
    : response ok_body * database :=
  if negb (Sql.bindable review_id (map r_id (reviews db)))
  then (Uncaught "OverflowError", db)
  else (Ok {| ok := true |}, Sql.delete_review review_id db).

(** *** The leaderboard, [get_stats] *)

Module StatsRow.

(** A row of the SELECT of [get_stats]. *)
Record t := mk {
  normalized_title : string;
  display_title : string;
  average_rating : option Q;
  review_count : Z
}.

End StatsRow.

Module StatsEntry.

(** A dict of the list that [get_stats] returns. *)
Record t := mk {
  title : string;
  average_rating : option Q;
  review_count : Z
}.

End StatsEntry.

Definition joined_row : Type := (anime_row * review_row)%type.

(** FROM anime a INNER JOIN reviews r ON a.id = r.anime_id *)
Definition inner_join (db : database) : list joined_row :=
  flat_map
    (fun a => map (pair a) (filter (fun r => a_id a =? r_anime_id r) (reviews db)))
    (anime db).

Definition is_watched (j : joined_row) : bool :=
  String.eqb (r_status (snd j)) "watched".

(** LOWER(TRIM(a.title)) *)
Definition normalized_title (j : joined_row) : string :=
  Sql.lower (Sql.trim (a_title (fst j))).

(** WHERE r.status = 'watched' *)
Definition watched_rows (db : database) : list joined_row :=
  filter is_watched (inner_join db).

Definition group_of (k : string) (rows : list joined_row) : list joined_row :=
  filter (fun j => String.eqb (normalized_title j) k) rows.

(** [a.title] is a bare column of an aggregate query: SQLite takes it
    from a row of the group that it does not specify.  [bare_choice] is
    that choice, given the first row of a group and the rest of it. *)
Definition bare_choice : Type := joined_row -> list joined_row -> joined_row.

Definition group_row (pick : bare_choice) (k : string) (rows : list joined_row)
    : list StatsRow.t :=
  match group_of k rows with
  | [] => []
  | x :: g =>
    [ {| StatsRow.normalized_title := k;
         StatsRow.display_title := a_title (fst (pick x g));
         StatsRow.average_rating :=
           Sql.avg (map (fun j => Some (r_rating (snd j))) (x :: g));
         StatsRow.review_count :=
           Sql.count (map (fun j => Some (r_id (snd j))) (x :: g)) |} ]
  end.

(** NULL sorts below every value. *)
Definition null_first_leb (a b : option Q) : bool :=
  match a, b with
  | None, _ => true
  | Some _, None => false
  | Some x, Some y => Qle_bool x y
  end.

(** GROUP BY normalized_title HAVING COUNT(r.id) > 0
    ORDER BY average_rating DESC *)
Definition stats_rows (pick : bare_choice) (db : database) : list StatsRow.t :=
  let rows := watched_rows db in
  let keys := nodup string_dec (map normalized_title rows) in
  let groups := flat_map (fun k => group_row pick k rows) keys in
  let having := filter (fun g => 0 <? StatsRow.review_count g) groups in
  Sql.order_by
    (fun x y => null_first_leb (StatsRow.average_rating y) (StatsRow.average_rating x))
    having.

Definition get_stats (pick : bare_choice) (db : database)
    : response (list StatsEntry.t) * database :=
  let rows := stats_rows pick db in
  let result :=
    map (fun row =>
           {| StatsEntry.title := StatsRow.display_title row;
              StatsEntry.average_rating := StatsRow.average_rating row;
              StatsEntry.review_count := StatsRow.review_count row |})
        rows in
  (Ok result, db).

(** *** The leaderboard in double precision

    [get_stats] with AVG and ORDER BY as SQLite evaluates them: the
    means are doubles, summed over the rows of a group in the order of
    the join, and the rows are compared on these doubles. *)

Module StatsRowReal.

Record t := mk {
  normalized_title : string;
  display_title : string;
  average_rating : option Real.t;
  review_count : Z
}.

End StatsRowReal.

Module StatsEntryReal.

Record t := mk {
  title : string;
  average_rating : option Real.t;
  review_count : Z
}.

End StatsEntryReal.

Definition group_row_real (pick : bare_choice) (k : string) (rows : list joined_row)
    : list StatsRowReal.t :=
  match group_of k rows with
  | [] => []
  | x :: g =>
    [ {| StatsRowReal.normalized_title := k;
         StatsRowReal.display_title := a_title (fst (pick x g));
         StatsRowReal.average_rating :=
           Sql.avg_real (map (fun j => Some (r_rating (snd j))) (x :: g));
         StatsRowReal.review_count :=
           Sql.count (map (fun j => Some (r_id (snd j))) (x :: g)) |} ]
  end.

Definition null_first_leb_real (a b : option Real.t) : bool :=
  match a, b with
  | None, _ => true
  | Some _, None => false
  | Some x, Some y => Real.leb x y
  end.

Definition stats_rows_real (pick : bare_choice) (db : database)
    : list StatsRowReal.t :=
  let rows := watched_rows db in
  let keys := nodup string_dec (map normalized_title rows) in
  let groups := flat_map (fun k => group_row_real pick k rows) keys in
  let having := filter (fun g => 0 <? StatsRowReal.review_count g) groups in
  Sql.order_by
    (fun x y => null_first_leb_real (StatsRowReal.average_rating y)
                                    (StatsRowReal.average_rating x))
    having.

Definition get_stats_real (pick : bare_choice) (db : database)
    : response (list StatsEntryReal.t) * database :=
  let rows := stats_rows_real pick db in
  let result :=
    map (fun row =>
           {| StatsEntryReal.title := StatsRowReal.display_title row;
              StatsEntryReal.average_rating := StatsRowReal.average_rating row;
              StatsEntryReal.review_count := StatsRowReal.review_count row |})
        rows in
  (Ok result, db).

(** ** Routes: body validation, then the handler *)

Definition post_api_anime (now : timestamp) (db : database) (b : AnimeCreate.body)
    : response AnimeResponse.t * database :=
  match AnimeCreate.parse b with
  | inl errors => (RequestValidationError errors, db)
  | inr anime => create_anime now db anime
  end.

Definition post_api_reviews (now : timestamp) (db : database) (b : ReviewCreate.body)
    : response ReviewResponse * database :=
  match ReviewCreate.parse b with
  | inl errors => (RequestValidationError errors, db)
  | inr review => create_review now db review
  end.

Definition patch_api_reviews (db : database) (review_id : Z) (b : ReviewUpdate.t)
    : response ReviewResponse * database :=
  match ReviewUpdate.parse b with
  | inl errors => (RequestValidationError errors, db)
  | inr review_update => update_review db review_id review_update
  end.

(** ** The error taxonomy of the specification, read on responses *)

Definition NotFound {A : Type} (r : response A) : Prop :=
  exists detail, r = HTTPException 404 detail.


Definition PlanningMustBeUnrated {A : Type} (r : response A) : Prop :=
  r = HTTPException 400 "Cannot rate anime with planning status".

Definition InvalidStatus {A : Type} (r : response A) : Prop :=
  exists errors,
    r = RequestValidationError errors
    /\ In ("status", "Status must be watched or planning") errors.

(** ** A session used in the examples *)

Definition naruto_db : database :=
  snd (create_anime 100 (init_db None) {| AnimeCreate.title := "Naruto" |}).

Definition review_by (user : string) (rating : Q) (status : string) : ReviewCreate.t :=
  {| ReviewCreate.anime_id := 1; ReviewCreate.user_name := user;
     ReviewCreate.rating := rating; ReviewCreate.review_text := None;
     ReviewCreate.status := status |}.

Definition naruto_reviewed_db : database :=
  let db1 := snd (create_review 101 naruto_db (review_by "John" 8 "watched")) in
  let db2 := snd (create_review 102 db1 (review_by "Jane" 10 "watched")) in
  snd (create_review 103 db2 (review_by "Joe" 0 "planning")).

(** ** Requests that write, and the databases they lead to *)

Inductive request : Type :=
| CreateAnime (now : timestamp) (b : AnimeCreate.body)
| DeleteAnime (anime_id : Z)
| CreateReview (now : timestamp) (b : ReviewCreate.body)
| UpdateReview (review_id : Z) (b : ReviewUpdate.t)
| DeleteReview (review_id : Z).

Definition after (db : database) (req : request) : database :=
  match req with
  | CreateAnime now b => snd (post_api_anime now db b)
  | DeleteAnime anime_id => snd (delete_anime db anime_id)
  | CreateReview now b => snd (post_api_reviews now db b)
  | UpdateReview review_id b => snd (patch_api_reviews db review_id b)
  | DeleteReview review_id => snd (delete_review db review_id)
  end.

Inductive reachable : database -> Prop :=
| reachable_init : reachable (init_db None)
| reachable_step (db : database) (req : request) :
    reachable db -> reachable (after db req).

Definition titles_unique (db : database) : Prop :=
  NoDup (map a_title (anime db)).

Definition reviews_checked (db : database) : Prop :=
  Forall (fun r => Sql.check_review r = None) (reviews db).

(** ** The specification's words, for comparison with the queries *)

Definition is_watched_review (r : review_row) : bool :=
  String.eqb (r_status r) "watched".


(** Count of all reviews regardless of status. *)
Definition spec_total_reviews (rs : list review_row) : Z :=
  Z.of_nat (List.length rs).

(** The merged view of a partial update: the incoming value if
    provided, else the stored one. *)
Definition merged_status (u : ReviewUpdate.t) (stored : review_row) : string :=
  match ReviewUpdate.status u with
  | Some s => s
  | None => r_status stored
  end.

Definition merged_rating (u : ReviewUpdate.t) (stored : review_row) : Q :=
  match ReviewUpdate.rating u with
  | Some v => v
  | None => r_rating stored
  end.

(** The sentence of the specification about deletion, at one id: both
    deletes succeed. *)
Definition deletes_answer_ok (db : database) (id : Z) : Prop :=
  fst (delete_anime db id) = Ok {| ok := true |}
  /\ fst (delete_review db id) = Ok {| ok := true |}.

(** ** Example data and the vocabulary of the statements *)

Definition naruto_body : AnimeCreate.body :=
  {| AnimeCreate.body_title := Some "Naruto";
     AnimeCreate.others := [("description", "Ninja story")] |}.

Definition empty_update : ReviewUpdate.t :=
  {| ReviewUpdate.rating := None; ReviewUpdate.review_text := None;
     ReviewUpdate.status := None |}.

Definition status_dropped : ReviewUpdate.t :=
  {| ReviewUpdate.rating := None; ReviewUpdate.review_text := None;
     ReviewUpdate.status := Some "dropped" |}.


Definition accepted {A : Type} (r : response A) : bool :=
  match r with
  | Ok _ => true
  | _ => false
  end.



Definition status_planning : ReviewUpdate.t :=
  {| ReviewUpdate.rating := None; ReviewUpdate.review_text := None;
     ReviewUpdate.status := Some "planning" |}.

Definition without_status (u : ReviewUpdate.t) : ReviewUpdate.t :=
  {| ReviewUpdate.rating := ReviewUpdate.rating u;
     ReviewUpdate.review_text := ReviewUpdate.review_text u;
     ReviewUpdate.status := None |}.

Definition status_empty_rating_7 : ReviewUpdate.t :=
  {| ReviewUpdate.rating := Some 7%Q; ReviewUpdate.review_text := None;
     ReviewUpdate.status := Some "" |}.


(** The normalized key of a Title, as [get_stats] computes it. *)
Definition title_key (a : anime_row) : string := Sql.lower (Sql.trim (a_title a)).

(** The watched Reviews of the Titles whose normalized key is [k]. *)
Definition watched_reviews_of_key (k : string) (db : database) : list review_row :=
  flat_map (fun a => filter is_watched_review (reviews_of (a_id a) db))
           (filter (fun a => String.eqb (title_key a) k) (anime db)).

(** Two consecutive leaderboard rows: both have a mean, and the first
    mean is not below the second. *)
Definition ranked_before (x y : StatsRow.t) : Prop :=
  exists mx my,
    StatsRow.average_rating x = Some mx
    /\ StatsRow.average_rating y = Some my
    /\ (my <= mx)%Q.

Definition has_watched_review (a : anime_row) (db : database) : Prop :=
  exists r, In r (reviews db) /\ r_anime_id r = a_id a /\ r_status r = "watched".

Definition first_row : bare_choice := fun x _ => x.

Definition review_for (anime_id : Z) (user : string) (rating : Q) (status : string)
    : ReviewCreate.t :=
  {| ReviewCreate.anime_id := anime_id; ReviewCreate.user_name := user;
     ReviewCreate.rating := rating; ReviewCreate.review_text := None;
     ReviewCreate.status := status |}.

(** Titles B (watched 6), A (watched 10 and 8, planned by a third
    user) and C (planning only), created in this order. *)
Definition ranking_db : database :=
  Eval vm_compute in
  let db1 := snd (create_anime 100 (init_db None) {| AnimeCreate.title := "B" |}) in
  let db2 := snd (create_anime 101 db1 {| AnimeCreate.title := "A" |}) in
  let db3 := snd (create_anime 102 db2 {| AnimeCreate.title := "C" |}) in
  let db4 := snd (create_review 110 db3 (review_for 1 "u1" 6 "watched")) in
  let db5 := snd (create_review 111 db4 (review_for 2 "u1" 10 "watched")) in
  let db6 := snd (create_review 112 db5 (review_for 2 "u2" 8 "watched")) in
  let db7 := snd (create_review 113 db6 (review_for 2 "u3" 0 "planning")) in
  snd (create_review 114 db7 (review_for 3 "u1" 0 "planning")).

(** ** The specification's words on means and keys

    Written without the query building blocks of [Sql], for comparison
    with them. *)







Definition ascii_lowercase (c : ascii) : ascii :=
  match c with
  | "A" => "a" | "B" => "b" | "C" => "c" | "D" => "d" | "E" => "e"
  | "F" => "f" | "G" => "g" | "H" => "h" | "I" => "i" | "J" => "j"
  | "K" => "k" | "L" => "l" | "M" => "m" | "N" => "n" | "O" => "o"
  | "P" => "p" | "Q" => "q" | "R" => "r" | "S" => "s" | "T" => "t"
  | "U" => "u" | "V" => "v" | "W" => "w" | "X" => "x" | "Y" => "y"
  | "Z" => "z"
  | _ => c
  end%char.

Fixpoint drop_leading (blank : ascii -> bool) (l : list ascii) : list ascii :=
  match l with
  | [] => []
  | c :: l' => if blank c then drop_leading blank l' else l
  end.

(** A title without its leading and trailing blanks, in lower case. *)
Definition normalized_with (blank : ascii -> bool) (title : string) : string :=
  string_of_list_ascii
    (map ascii_lowercase
         (rev (drop_leading blank
                 (rev (drop_leading blank (list_ascii_of_string title)))))).

(** The space character alone, as TRIM has it. *)
Definition is_blank (c : ascii) : bool :=
  match c with
  | " "%char => true
  | _ => false
  end.

(** White space as Python's [str.strip] has it on ASCII: tab, line
    feed, vertical tab, form feed, carriage return and space. *)
Definition is_whitespace (c : ascii) : bool :=
  match nat_of_ascii c with
  | 9%nat | 10%nat | 11%nat | 12%nat | 13%nat | 32%nat => true
  | _ => false
  end.

(** The key of a title as SQLite computes it: spaces trimmed, ASCII
    letters lowered. *)
Definition ascii_space_key (title : string) : string :=
  normalized_with is_blank title.

(** The key as the specification words it: lowercased,
    whitespace-trimmed. *)
Definition claimed_key (title : string) : string :=
  normalized_with is_whitespace title.




(** The doubles nearest to 0.1, 0.2 and 0.3. *)
Definition tenth : Q := 3602879701896397 # 36028797018963968.
Definition fifth : Q := 3602879701896397 # 18014398509481984.
Definition three_tenths : Q := 5404319552844595 # 18014398509481984.

(** Title P, watched with the ratings 0.1, 0.2 and 0.3, and Title Q,
    watched with the rating 0.2. *)
Definition thirds_db : database :=
  Eval vm_compute in
  let db1 := snd (create_anime 100 (init_db None) {| AnimeCreate.title := "P" |}) in
  let db2 := snd (create_anime 101 db1 {| AnimeCreate.title := "Q" |}) in
  let db3 := snd (create_review 110 db2 (review_for 1 "u1" tenth "watched")) in
  let db4 := snd (create_review 111 db3 (review_for 1 "u2" fifth "watched")) in
  let db5 := snd (create_review 112 db4 (review_for 1 "u3" three_tenths "watched")) in
  snd (create_review 113 db5 (review_for 2 "u1" fifth "watched")).

(** The title Naruto and the same title after a tab, each watched
    once. *)
Definition tab_db : database :=
  Eval vm_compute in
  let db1 := snd (create_anime 100 (init_db None) {| AnimeCreate.title := "Naruto" |}) in
  let db2 := snd (create_anime 101 db1
                    {| AnimeCreate.title := String (ascii_of_nat 9) "Naruto" |}) in
  let db3 := snd (create_review 110 db2 (review_for 1 "u1" 8 "watched")) in
  snd (create_review 111 db3 (review_for 2 "u2" 6 "watched")).

(** ** The remaining handlers *)

(** [startup]: the tables are created when the application starts. *)
Definition startup (file : option database) : database := init_db file.

(** The body [{"message": ...}] of [root]. *)
Record message_body := mk_message_body { message : string }.

Definition root (db : database) : response message_body * database :=
  (Ok {| message := "Anime Review Site API" |}, db).

(** ** Vocabulary of the further statements *)

(** PRIMARY KEY on both tables and UNIQUE on anime.title. *)
Definition keys_unique (db : database) : Prop :=
  NoDup (map a_id (anime db))
  /\ NoDup (map a_title (anime db))
  /\ NoDup (map r_id (reviews db)).

(** No stored id is above its table's AUTOINCREMENT counter, and no
    review refers to a title id that was never handed out. *)
Definition ids_within_sequence (db : database) : Prop :=
  Forall (fun a => a_id a <= seq_anime db) (anime db)
  /\ Forall (fun r => r_id r <= seq_reviews db /\ r_anime_id r <= seq_anime db)
            (reviews db).

(** A planning review carries no rating above 0. *)
Definition planning_unrated (r : review_row) : Prop :=
  r_status r = "planning" -> ~ (0 < r_rating r)%Q.

Definition reviews_valid (db : database) : Prop :=
  Forall (fun r => Sql.check_review r = None /\ planning_unrated r) (reviews db).

Definition well_formed (db : database) : Prop :=
  keys_unique db /\ ids_within_sequence db /\ reviews_valid db.

(** The row that [update_review] leaves in place of [r]. *)
Definition updated_row (u : ReviewUpdate.t) (r : review_row) : review_row :=
  mk_review_row (r_id r) (r_anime_id r) (r_user_name r) (new_rating u r)
    (match ReviewUpdate.review_text u with
     | Some v => Some v
     | None => r_review_text r
     end)
    (current_status u r) (r_created_at r).


Definition InvalidRating {A : Type} (r : response A) : Prop :=
  exists errors,
    r = RequestValidationError errors
    /\ In ("rating", "Rating must be between 0 and 10") errors.

Definition total_count (rows : list StatsRow.t) : Z :=
  fold_right Z.add 0 (map StatsRow.review_count rows).

(** A watched review whose title is stored. *)
Definition counted_review (db : database) (r : review_row) : bool :=
  is_watched_review r && existsb (fun a => a_id a =? r_anime_id r) (anime db).


(** ** Further example data *)

(** The review of the test suite: rating 9.5 for Title 1. *)
Definition john_review : ReviewCreate.body :=
  {| ReviewCreate.body_anime_id := Some 1;
     ReviewCreate.body_user_name := Some "John";
     ReviewCreate.body_rating := Some (19 # 2);
     ReviewCreate.body_review_text := Some "Amazing anime";
     ReviewCreate.body_status := Some "watched" |}.

Definition planned_and_rated : ReviewCreate.body :=
  {| ReviewCreate.body_anime_id := Some 1;
     ReviewCreate.body_user_name := Some "Jane";
     ReviewCreate.body_rating := Some 8%Q;
     ReviewCreate.body_review_text := None;
     ReviewCreate.body_status := Some "planning" |}.



(** ** Proof automation *)


(** * Properties *)

(** ** Lists and rowids *)

Lemma filter_all {A : Type} (p : A -> bool) (l : list A) :
  (forall x, In x l -> p x = true) -> filter p l = l.
Proof.
  induction l as [|x l IH]; simpl; intros H; [reflexivity|].
  rewrite (H x (or_introl eq_refl)). f_equal. apply IH. intros y Hy. apply H. now right.
Qed.

Lemma find_app_last {A : Type} (p : A -> bool) (l : list A) (x : A) :
  (forall y, In y l -> p y = false) -> p x = true -> find p (l ++ [x]) = Some x.
Proof.
  induction l as [|y l IH]; simpl; intros Hl Hx.
  - now rewrite Hx.
  - rewrite (Hl y (or_introl eq_refl)). apply IH; [|exact Hx].
    intros z Hz. apply Hl. now right.
Qed.

Lemma next_rowid_fresh (seq : Z) (ids : list Z) (i : Z) :
  In i ids -> i < Sql.next_rowid seq ids.
Proof.
  unfold Sql.next_rowid. induction ids as [|j ids IH]; simpl; [tauto|].
  intros [->|H]; [lia|]. specialize (IH H). lia.
Qed.

Lemma existsb_find_none {A : Type} (p : A -> bool) (l : list A) :
  find p l = None -> existsb p l = false.
Proof.
  induction l as [|x l IH]; simpl; [reflexivity|].
  destruct (p x); [discriminate|]. exact IH.
Qed.

(** ** Binding ids *)

Lemma bindable_fits (n : Z) (ids : list Z) :
  Sql.fits_int64 n = true -> Sql.bindable n ids = true.
Proof. unfold Sql.bindable. now intros ->. Qed.

Lemma bindable_member (n : Z) (ids : list Z) :
  In n ids -> Sql.bindable n ids = true.
Proof.
  intros H. unfold Sql.bindable. apply orb_true_iff. right.
  apply existsb_exists. exists n. split; [exact H|apply Z.eqb_refl].
Qed.

Lemma bindable_stranger (n : Z) (ids : list Z) :
  ~ In n ids -> Sql.bindable n ids = Sql.fits_int64 n.
Proof.
  intros H. unfold Sql.bindable.
  destruct (existsb (Z.eqb n) ids) eqn:E; [|apply orb_false_r].
  apply existsb_exists in E. destruct E as [m [Hm E]].
  apply Z.eqb_eq in E. now subst m.
Qed.

Lemma select_anime_stored (id : Z) (db : database) (a : anime_row) :
  Sql.select_anime_by_id id db = Some a -> In id (map a_id (anime db)).
Proof.
  unfold Sql.select_anime_by_id. intros H. apply find_some in H.
  destruct H as [Hin Hid]. apply Z.eqb_eq in Hid. subst id. now apply in_map.
Qed.

Lemma select_review_stored (id : Z) (db : database) (r : review_row) :
  Sql.select_review_by_id id db = Some r -> In id (map r_id (reviews db)).
Proof.
  unfold Sql.select_review_by_id. intros H. apply find_some in H.
  destruct H as [Hin Hid]. apply Z.eqb_eq in Hid. subst id. now apply in_map.
Qed.

Lemma select_anime_absent (id : Z) (db : database) :
  Sql.select_anime_by_id id db = None -> ~ In id (map a_id (anime db)).
Proof.
  unfold Sql.select_anime_by_id. intros H Hin. apply in_map_iff in Hin.
  destruct Hin as [a [Hid Hin]]. apply (find_none _ _ H) in Hin.
  rewrite Hid, Z.eqb_refl in Hin. discriminate.
Qed.

Lemma select_review_absent (id : Z) (db : database) :
  Sql.select_review_by_id id db = None -> ~ In id (map r_id (reviews db)).
Proof.
  unfold Sql.select_review_by_id. intros H Hin. apply in_map_iff in Hin.
  destruct Hin as [r [Hid Hin]]. apply (find_none _ _ H) in Hin.
  rewrite Hid, Z.eqb_refl in Hin. discriminate.
Qed.

Lemma select_anime_binds (id : Z) (db : database) (a : anime_row) :
  Sql.select_anime_by_id id db = Some a ->
  Sql.bindable id (map a_id (anime db)) = true.
Proof. intros H. apply bindable_member. exact (select_anime_stored _ _ _ H). Qed.

Lemma select_review_binds (id : Z) (db : database) (r : review_row) :
  Sql.select_review_by_id id db = Some r ->
  Sql.bindable id (map r_id (reviews db)) = true.
Proof. intros H. apply bindable_member. exact (select_review_stored _ _ _ H). Qed.

Lemma absent_anime_binds (id : Z) (db : database) :
  Sql.select_anime_by_id id db = None ->
  Sql.bindable id (map a_id (anime db)) = Sql.fits_int64 id.
Proof. intros H. apply bindable_stranger. exact (select_anime_absent _ _ H). Qed.

Lemma absent_review_binds (id : Z) (db : database) :
  Sql.select_review_by_id id db = None ->
  Sql.bindable id (map r_id (reviews db)) = Sql.fits_int64 id.
Proof. intros H. apply bindable_stranger. exact (select_review_absent _ _ H). Qed.

(** On a table whose ids are all 64-bit INTEGERs, as in every file, an
    id binds exactly when it fits. *)
Lemma bindable_on_int64_ids (n : Z) (ids : list Z) :
  Forall (fun i => Sql.fits_int64 i = true) ids ->
  Sql.bindable n ids = Sql.fits_int64 n.
Proof.
  intros H. unfold Sql.bindable.
  destruct (Sql.fits_int64 n) eqn:E; [reflexivity|]. simpl.
  destruct (existsb (Z.eqb n) ids) eqn:Ex; [|reflexivity].
  apply existsb_exists in Ex. destruct Ex as [m [Hm Em]].
  apply Z.eqb_eq in Em. subst m. rewrite Forall_forall in H.
  rewrite (H n Hm) in E. discriminate.
Qed.

Lemma unbound_anime_absent (id : Z) (db : database) :
  Sql.bindable id (map a_id (anime db)) = false ->
  Sql.select_anime_by_id id db = None.
Proof.
  intros H. destruct (Sql.select_anime_by_id id db) as [a|] eqn:E; [|reflexivity].
  rewrite (select_anime_binds _ _ _ E) in H. discriminate.
Qed.

Lemma unbound_review_absent (id : Z) (db : database) :
  Sql.bindable id (map r_id (reviews db)) = false ->
  Sql.select_review_by_id id db = None.
Proof.
  intros H. destruct (Sql.select_review_by_id id db) as [r|] eqn:E; [|reflexivity].
  rewrite (select_review_binds _ _ _ E) in H. discriminate.
Qed.

(** ** Title creation *)

Lemma title_taken_In (t : string) (db : database) :
  Sql.title_taken t db = true <-> In t (map a_title (anime db)).
Proof.
  unfold Sql.title_taken. rewrite existsb_exists, in_map_iff. split.
  - intros [a [Ha He]]. apply String.eqb_eq in He. now exists a.
  - intros [a [He Ha]]. exists a. split; [exact Ha|]. now apply String.eqb_eq.
Qed.

Lemma select_inserted_anime (db : database) (row : anime_row) :
  a_id row = Sql.next_rowid (seq_anime db) (map a_id (anime db)) ->
  find (fun a => a_id a =? a_id row) (anime db ++ [row]) = Some row.
Proof.
  intros Hid. apply find_app_last; [|apply Z.eqb_refl].
  intros y Hy. apply Z.eqb_neq.
  assert (a_id y < a_id row); [|lia].
  rewrite Hid. apply next_rowid_fresh. now apply in_map.
Qed.

(** What [create_anime] does when the title is free. *)
Lemma create_anime_fresh (now : timestamp) (db : database) (t : string) :
  Sql.title_taken t db = false ->
  let id := Sql.next_rowid (seq_anime db) (map a_id (anime db)) in
  let row := mk_anime_row id t None now in
  create_anime now db {| AnimeCreate.title := t |} =
  (Ok (AnimeResponse.mk id t None None 0 None None now),
   {| anime := anime db ++ [row]; reviews := reviews db;
      seq_anime := id; seq_reviews := seq_reviews db |}).
Proof.
  intros Hfree id row. unfold create_anime, Sql.insert_anime. simpl.
  rewrite Hfree. fold id. unfold Sql.select_anime_by_id. simpl.
  change (find (fun a => a_id a =? id) (anime db ++ [mk_anime_row id t None now]))
    with (find (fun a => a_id a =? a_id row) (anime db ++ [row])).
  rewrite select_inserted_anime by reflexivity. reflexivity.
Qed.

Lemma create_anime_taken (now : timestamp) (db : database) (t : string) :
  Sql.title_taken t db = true ->
  create_anime now db {| AnimeCreate.title := t |} =
  (HTTPException 400 "Anime with this title already exists", db).
Proof.
  intros H. unfold create_anime, Sql.insert_anime. simpl. now rewrite H.
Qed.


(** The example of the specification: "Naruto" twice. *)
Example naruto_twice :
  post_api_anime 200 naruto_db (AnimeCreate.mk_body (Some "Naruto") [])
  = (HTTPException 400 "Anime with this title already exists", naruto_db).
Proof. reflexivity. Qed.

(** The model [AnimeCreate] declares [title] only: whatever else the
    body carries does not reach the handler. *)
Lemma post_api_anime_ignores_others (now : timestamp) (db : database)
    (b : AnimeCreate.body) :
  post_api_anime now db b =
  post_api_anime now db
    {| AnimeCreate.body_title := AnimeCreate.body_title b; AnimeCreate.others := [] |}.
Proof.
  unfold post_api_anime, AnimeCreate.parse. simpl. reflexivity.
Qed.

(** C8: a Title creation that answers reports description, average
    rating and both latest-review fields as null and zero reviews, and
    the row it stored has a null description; keys of the body other
    than [title], such as a description, change neither the response
    nor the database. *)
Theorem create_anime_description_is_null :
  forall (now : timestamp) (db db' : database) (b : AnimeCreate.body)
         (resp : AnimeResponse.t),
    post_api_anime now db b = (Ok resp, db') ->
    AnimeResponse.description resp = None
    /\ AnimeResponse.average_rating resp = None
    /\ AnimeResponse.total_reviews resp = 0
    /\ AnimeResponse.latest_review_text resp = None
    /\ AnimeResponse.latest_review_user resp = None
    /\ (exists row,
          Sql.select_anime_by_id (AnimeResponse.id resp) db' = Some row
          /\ anime db' = (anime db ++ [row])%list
          /\ Some (a_title row) = AnimeCreate.body_title b
          /\ a_description row = None)
    /\ (forall others,
          post_api_anime now db
            {| AnimeCreate.body_title := AnimeCreate.body_title b;
               AnimeCreate.others := others |} = (Ok resp, db')).
Proof.
  intros now db db' b resp H.
  assert (Hothers : forall others,
            post_api_anime now db
              {| AnimeCreate.body_title := AnimeCreate.body_title b;
                 AnimeCreate.others := others |} = (Ok resp, db')).
  { intros others. rewrite post_api_anime_ignores_others. simpl.
    rewrite <- post_api_anime_ignores_others. exact H. }
  unfold post_api_anime, AnimeCreate.parse in H.
  destruct (AnimeCreate.body_title b) as [t|] eqn:Et; [|discriminate].
  destruct (Sql.title_taken t db) eqn:Etaken.
  - rewrite create_anime_taken in H by exact Etaken. discriminate.
  - rewrite create_anime_fresh in H by exact Etaken.
    injection H as <- <-. simpl. repeat split; try reflexivity; try exact Hothers.
    eexists. split; [|repeat split; reflexivity].
    unfold Sql.select_anime_by_id. simpl.
    apply (select_inserted_anime db
             (mk_anime_row (Sql.next_rowid (seq_anime db) (map a_id (anime db)))
                           t None now)).
    reflexivity.
Qed.

Lemma create_anime_description_is_null_witness :
  exists resp db',
    post_api_anime 100 (init_db None) naruto_body = (Ok resp, db')
    /\ AnimeResponse.description resp = None
    /\ AnimeResponse.total_reviews resp = 0.
Proof.
  eexists; eexists.
  assert (H : post_api_anime 100 (init_db None) naruto_body
              = (Ok (AnimeResponse.mk 1 "Naruto" None None 0 None None 100),
                 naruto_db)) by reflexivity.
  split; [exact H|].
  destruct (create_anime_description_is_null _ _ _ _ _ H) as [Hd [_ [Ht _]]].
  split; [exact Hd | exact Ht].
Defined.

(** ** Deletion *)

Lemma delete_anime_absent (db : database) (anime_id : Z) :
  Sql.select_anime_by_id anime_id db = None ->
  Sql.delete_anime get_db anime_id db = db.
Proof.
  intros H. unfold Sql.delete_anime. simpl.
  rewrite filter_all; [destruct db; reflexivity|].
  intros a Ha. unfold Sql.select_anime_by_id in H.
  now rewrite (find_none _ _ H a Ha).
Qed.

Lemma delete_review_absent (db : database) (review_id : Z) :
  Sql.select_review_by_id review_id db = None ->
  Sql.delete_review review_id db = db.
Proof.
  intros H. unfold Sql.delete_review.
  rewrite filter_all; [destruct db; reflexivity|].
  intros r Hr. unfold Sql.select_review_by_id in H.
  now rewrite (find_none _ _ H r Hr).
Qed.

Lemma filter_idem {A : Type} (p : A -> bool) (l : list A) :
  filter p (filter p l) = filter p l.
Proof.
  apply filter_all. intros x Hx. now apply filter_In in Hx.
Qed.

Lemma delete_anime_bound (db : database) (anime_id : Z) :
  Sql.bindable anime_id (map a_id (anime db)) = true ->
  delete_anime db anime_id
  = (Ok {| ok := true |}, Sql.delete_anime get_db anime_id db).
Proof. intros H. unfold delete_anime. now rewrite H. Qed.

Lemma delete_anime_unbound (db : database) (anime_id : Z) :
  Sql.bindable anime_id (map a_id (anime db)) = false ->
  delete_anime db anime_id = (Uncaught "OverflowError", db).
Proof. intros H. unfold delete_anime. now rewrite H. Qed.

Lemma delete_review_bound (db : database) (review_id : Z) :
  Sql.bindable review_id (map r_id (reviews db)) = true ->
  delete_review db review_id
  = (Ok {| ok := true |}, Sql.delete_review review_id db).
Proof. intros H. unfold delete_review. now rewrite H. Qed.

Lemma delete_review_unbound (db : database) (review_id : Z) :
  Sql.bindable review_id (map r_id (reviews db)) = false ->
  delete_review db review_id = (Uncaught "OverflowError", db).
Proof. intros H. unfold delete_review. now rewrite H. Qed.

Lemma delete_anime_not_404 (db : database) (anime_id : Z) :
  ~ NotFound (fst (delete_anime db anime_id)).
Proof.
  unfold delete_anime. intros [detail H].
  destruct (Sql.bindable anime_id _); discriminate H.
Qed.

Lemma delete_review_not_404 (db : database) (review_id : Z) :
  ~ NotFound (fst (delete_review db review_id)).
Proof.
  unfold delete_review. intros [detail H].
  destruct (Sql.bindable review_id _); discriminate H.
Qed.

Lemma delete_anime_twice (db : database) (id : Z) :
  Sql.fits_int64 id = true ->
  delete_anime (snd (delete_anime db id)) id = delete_anime db id.
Proof.
  intros Hfit.
  rewrite (delete_anime_bound db id) by now apply bindable_fits.
  cbn [snd]. rewrite delete_anime_bound by now apply bindable_fits.
  f_equal. unfold Sql.delete_anime. simpl. now rewrite filter_idem.
Qed.

Lemma delete_review_twice (db : database) (id : Z) :
  Sql.fits_int64 id = true ->
  delete_review (snd (delete_review db id)) id = delete_review db id.
Proof.
  intros Hfit.
  rewrite (delete_review_bound db id) by now apply bindable_fits.
  cbn [snd]. rewrite delete_review_bound by now apply bindable_fits.
  f_equal. unfold Sql.delete_review. simpl. now rewrite filter_idem.
Qed.

Lemma delete_anime_of_absent (db : database) (id : Z) :
  Sql.select_anime_by_id id db = None -> snd (delete_anime db id) = db.
Proof.
  intros H. unfold delete_anime.
  destruct (Sql.bindable id _); [|reflexivity].
  cbn [negb snd]. now apply delete_anime_absent.
Qed.

Lemma delete_review_of_absent (db : database) (id : Z) :
  Sql.select_review_by_id id db = None -> snd (delete_review db id) = db.
Proof.
  intros H. unfold delete_review.
  destruct (Sql.bindable id _); [|reflexivity].
  cbn [negb snd]. now apply delete_review_absent.
Qed.

(** What a delete request leaves is what the DELETE statement leaves:
    an id that cannot be bound is not stored. *)
Lemma delete_anime_storage (db : database) (id : Z) :
  snd (delete_anime db id) = Sql.delete_anime get_db id db.
Proof.
  unfold delete_anime. destruct (Sql.bindable id _) eqn:E; [reflexivity|].
  cbn [negb snd]. symmetry. apply delete_anime_absent.
  now apply unbound_anime_absent.
Qed.

Lemma delete_review_storage (db : database) (id : Z) :
  snd (delete_review db id) = Sql.delete_review id db.
Proof.
  unfold delete_review. destruct (Sql.bindable id _) eqn:E; [reflexivity|].
  cbn [negb snd]. symmetry. apply delete_review_absent.
  now apply unbound_review_absent.
Qed.

Lemma delete_anime_cases (db : database) (id : Z) :
  snd (delete_anime db id) = Sql.delete_anime get_db id db
  \/ snd (delete_anime db id) = db.
Proof.
  unfold delete_anime. destruct (Sql.bindable id _); [now left | now right].
Qed.

Lemma delete_review_cases (db : database) (id : Z) :
  snd (delete_review db id) = Sql.delete_review id db
  \/ snd (delete_review db id) = db.
Proof.
  unfold delete_review. destruct (Sql.bindable id _); [now left | now right].
Qed.

(** C9, the sentence as written fails at the id 2^63: binding it raises
    OverflowError, so the request ends in a server error instead of
    [{"ok": true}]. *)
Lemma delete_of_unbindable_id_is_not_ok :
  ~ deletes_answer_ok naruto_reviewed_db 9223372036854775808.
Proof.
  unfold deletes_answer_ok. intros [H _]. vm_compute in H. discriminate H.
Qed.

(** The same request, as the handlers answer it. *)
Example delete_of_unbindable_id_raises :
  delete_anime naruto_reviewed_db 9223372036854775808
  = (Uncaught "OverflowError", naruto_reviewed_db)
  /\ delete_review naruto_reviewed_db 9223372036854775808
     = (Uncaught "OverflowError", naruto_reviewed_db).
Proof. split; reflexivity. Qed.

(** C9, amended: for every id that fits SQLite's 64-bit INTEGER both
    delete handlers answer [{"ok": true}] whether or not the id is
    stored, and deleting the same id a second time gives the answer and
    the database of deleting it once; on an id that is not stored they
    leave the database as it is; an id outside the 64-bit range that is
    not stored raises OverflowError and changes nothing; no id is
    answered with NotFound. *)
Theorem delete_answers_ok_for_64_bit_ids :
  forall (db : database) (id : Z),
    (Sql.fits_int64 id = true ->
       fst (delete_anime db id) = Ok {| ok := true |}
       /\ fst (delete_review db id) = Ok {| ok := true |}
       /\ delete_anime (snd (delete_anime db id)) id = delete_anime db id
       /\ delete_review (snd (delete_review db id)) id = delete_review db id)
    /\ (Sql.select_anime_by_id id db = None -> snd (delete_anime db id) = db)
    /\ (Sql.select_review_by_id id db = None -> snd (delete_review db id) = db)
    /\ (Sql.fits_int64 id = false ->
        Sql.select_anime_by_id id db = None ->
        delete_anime db id = (Uncaught "OverflowError", db))
    /\ (Sql.fits_int64 id = false ->
        Sql.select_review_by_id id db = None ->
        delete_review db id = (Uncaught "OverflowError", db))
    /\ ~ NotFound (fst (delete_anime db id))
    /\ ~ NotFound (fst (delete_review db id)).
Proof.
  intros db id. split; [|split; [|split; [|split; [|split; [|split]]]]].
  - intros Hfit.
    rewrite (delete_anime_bound db id) by now apply bindable_fits.
    rewrite (delete_review_bound db id) by now apply bindable_fits.
    split; [reflexivity|]. split; [reflexivity|]. split.
    + rewrite <- (delete_anime_bound db id) by now apply bindable_fits.
      now apply delete_anime_twice.
    + rewrite <- (delete_review_bound db id) by now apply bindable_fits.
      now apply delete_review_twice.
  - apply delete_anime_of_absent.
  - apply delete_review_of_absent.
  - intros Hfit Hnone. apply delete_anime_unbound.
    now rewrite absent_anime_binds.
  - intros Hfit Hnone. apply delete_review_unbound.
    now rewrite absent_review_binds.
  - apply delete_anime_not_404.
  - apply delete_review_not_404.
Qed.

Lemma delete_answers_ok_for_64_bit_ids_witness :
  fst (delete_anime naruto_reviewed_db 7) = Ok {| ok := true |}
  /\ snd (delete_anime naruto_reviewed_db 7) = naruto_reviewed_db
  /\ snd (delete_review naruto_reviewed_db 7) = naruto_reviewed_db
  /\ delete_review (snd (delete_review naruto_reviewed_db 1)) 1
     = delete_review naruto_reviewed_db 1.
Proof.
  destruct (delete_answers_ok_for_64_bit_ids naruto_reviewed_db 7)
    as [Hok [Ha [Hr _]]].
  destruct (delete_answers_ok_for_64_bit_ids naruto_reviewed_db 1)
    as [Hok1 _].
  split; [apply Hok; reflexivity|].
  split; [apply Ha; reflexivity|].
  split; [apply Hr; reflexivity|].
  apply Hok1. reflexivity.
Defined.

(** *** Deleting a Title and its Reviews *)

(** The DELETE statement itself cascades on a connection that enforces
    foreign keys: no review of a deleted title is left. *)
Lemma sql_delete_anime_cascades (conn : connection) (db : database) (id : Z) :
  foreign_keys conn = true ->
  (exists a, In a (anime db) /\ a_id a = id) ->
  forall r, In r (reviews (Sql.delete_anime conn id db)) -> r_anime_id r <> id.
Proof.
  intros Hfk [a [Ha Hid]] r. unfold Sql.delete_anime. simpl. rewrite Hfk. simpl.
  assert (E : existsb (fun a => a_id a =? id) (anime db) = true).
  { apply existsb_exists. exists a. split; [exact Ha|]. now apply Z.eqb_eq. }
  rewrite E. intros Hr. apply filter_In in Hr. destruct Hr as [_ Hr].
  apply negb_true_iff in Hr. now apply Z.eqb_neq.
Qed.

(** The handler's connection does not: [delete_anime] never touches the
    reviews table. *)
Lemma delete_anime_reviews (db : database) (anime_id : Z) :
  reviews (snd (delete_anime db anime_id)) = reviews db.
Proof.
  unfold delete_anime. now destruct (Sql.bindable anime_id _).
Qed.

(** C1, as the handler behaves: after the Title "Naruto" (id 1) with its
    three Reviews is deleted, the Title is gone (fetching it is
    NotFound) but the three Reviews, all with anime_id 1, are still
    stored, and a request for Review 1 answers with the row instead of
    NotFound. *)
Theorem delete_anime_leaves_its_reviews :
  let db' := snd (delete_anime naruto_reviewed_db 1) in
  Sql.select_anime_by_id 1 db' = None
  /\ NotFound (fst (get_anime db' 1))
  /\ reviews db' = reviews naruto_reviewed_db
  /\ map r_anime_id (reviews db') = [1; 1; 1]
  /\ fst (update_review db' 1 empty_update)
     = Ok (mk_review_row 1 1 "John" 8 None "watched" 101).
Proof.
  cbv zeta. split; [reflexivity|]. split; [|repeat split].
  exists "Anime not found". reflexivity.
Qed.

(** ** Status validation *)

Lemma parse_invalid_status (b : ReviewCreate.body) (s : string) :
  ReviewCreate.body_status b = Some s ->
  status_allowed s = false ->
  exists errors,
    ReviewCreate.parse b = inl errors
    /\ In ("status", "Status must be watched or planning") errors.
Proof.
  intros Hs Hbad. unfold ReviewCreate.parse. rewrite Hs.
  assert (Hf : ReviewCreate.field "status" (Some s) ReviewCreate.validate_status
               = inl [("status", "Status must be watched or planning")]).
  { unfold ReviewCreate.field, ReviewCreate.validate_status. now rewrite Hbad. }
  rewrite Hf.
  destruct (ReviewCreate.field "anime_id" _ _);
    destruct (ReviewCreate.field "user_name" _ _);
    destruct (ReviewCreate.field "rating" _ _);
    eexists; (split; [reflexivity|]);
    repeat (apply in_or_app; right); simpl; auto.
Qed.

(** The creation half of C5: a creation request with a status outside
    {watched, planning} is answered with the status rule's validation
    error, and the database is not touched. *)
Lemma create_review_invalid_status (now : timestamp) (db : database)
    (b : ReviewCreate.body) (s : string) :
  ReviewCreate.body_status b = Some s ->
  status_allowed s = false ->
  InvalidStatus (fst (post_api_reviews now db b))
  /\ snd (post_api_reviews now db b) = db.
Proof.
  intros Hs Hbad. destruct (parse_invalid_status b s Hs Hbad) as [errors [Hp Hin]].
  unfold post_api_reviews. rewrite Hp. simpl. split; [|reflexivity].
  exists errors. split; [reflexivity | exact Hin].
Qed.

(** C5, the update half as the handler behaves: a partial update of a
    stored Review to the status "dropped" passes body validation, the
    handler issues the UPDATE, and the request ends in the CHECK
    constraint's error, which nothing catches. *)
Theorem update_review_invalid_status_reaches_storage :
  ReviewUpdate.parse status_dropped = inr status_dropped
  /\ update_parts status_dropped = [Sql.SetStatus "dropped"]
  /\ patch_api_reviews naruto_reviewed_db 1 status_dropped
     = (Uncaught "CHECK constraint failed: status IN ('watched', 'planning')",
        naruto_reviewed_db).
Proof. repeat split. Qed.

(** ** Review creation *)

Lemma select_inserted_review (db : database) (row : review_row) :
  r_id row = Sql.next_rowid (seq_reviews db) (map r_id (reviews db)) ->
  find (fun r => r_id r =? r_id row) (reviews db ++ [row]) = Some row.
Proof.
  intros Hid. apply find_app_last; [|apply Z.eqb_refl].
  intros y Hy. apply Z.eqb_neq.
  assert (r_id y < r_id row); [|lia].
  rewrite Hid. apply next_rowid_fresh. now apply in_map.
Qed.








(** ** Partial update *)

Lemma Qltb_lt (a b : Q) : Qltb a b = true <-> (a < b)%Q.
Proof.
  unfold Qltb. rewrite negb_true_iff. split.
  - intros H. apply Qnot_le_lt. intros Hle.
    apply Qle_bool_iff in Hle. congruence.
  - intros H. destruct (Qle_bool b a) eqn:E; [|reflexivity].
    apply Qle_bool_iff in E. exfalso. exact (Qlt_not_le _ _ H E).
Qed.

Lemma current_status_of_merged (u : ReviewUpdate.t) (stored : review_row) :
  merged_status u stored = "planning" -> current_status u stored = "planning".
Proof.
  unfold merged_status, current_status.
  destruct (ReviewUpdate.status u) as [s|]; [|auto].
  intros ->. reflexivity.
Qed.

(** The rejection itself, as an equation on the handler. *)
Lemma update_review_planning_rated (db : database) (review_id : Z)
    (u : ReviewUpdate.t) (stored : review_row) :
  Sql.select_review_by_id review_id db = Some stored ->
  merged_status u stored = "planning" ->
  (0 < merged_rating u stored)%Q ->
  update_review db review_id u
  = (HTTPException 400 "Cannot rate anime with planning status", db).
Proof.
  intros Hsel Hst Hr. unfold update_review.
  rewrite (select_review_binds _ _ _ Hsel). cbn [negb]. rewrite Hsel.
  rewrite (current_status_of_merged _ _ Hst).
  change (new_rating u stored) with (merged_rating u stored).
  apply Qltb_lt in Hr. rewrite Hr. reflexivity.
Qed.

(** C2: when the merged view of a partial update of a stored Review
    (incoming status if provided, else the stored one; incoming rating
    if provided, else the stored one) has status planning and a rating
    above 0, [update_review] raises PlanningMustBeUnrated and the
    database, hence the stored Review, is unchanged. *)
Theorem update_review_rejects_rated_planning :
  forall (db : database) (review_id : Z) (u : ReviewUpdate.t) (stored : review_row),
    Sql.select_review_by_id review_id db = Some stored ->
    merged_status u stored = "planning" ->
    (0 < merged_rating u stored)%Q ->
    PlanningMustBeUnrated (fst (update_review db review_id u))
    /\ snd (update_review db review_id u) = db
    /\ Sql.select_review_by_id review_id (snd (update_review db review_id u))
       = Some stored.
Proof.
  intros db review_id u stored Hsel Hst Hr.
  rewrite (update_review_planning_rated db review_id u stored Hsel Hst Hr).
  simpl. repeat split. exact Hsel.
Qed.

Lemma update_review_rejects_rated_planning_witness :
  PlanningMustBeUnrated (fst (update_review naruto_reviewed_db 1 status_planning))
  /\ snd (update_review naruto_reviewed_db 1 status_planning) = naruto_reviewed_db
  /\ Sql.select_review_by_id 1
       (snd (update_review naruto_reviewed_db 1 status_planning))
     = Some (mk_review_row 1 1 "John" 8 None "watched" 101).
Proof.
  apply (update_review_rejects_rated_planning naruto_reviewed_db 1 status_planning
           (mk_review_row 1 1 "John" 8 None "watched" 101)).
  - reflexivity.
  - reflexivity.
  - reflexivity.
Defined.

(** The same request seen from the route: the body is validated first,
    so the answer is PlanningMustBeUnrated whenever the incoming rating
    is absent or within [0, 10], and in every case nothing is written. *)
Lemma patch_api_reviews_rejects_rated_planning (db : database) (review_id : Z)
    (u : ReviewUpdate.t) (stored : review_row) :
  Sql.select_review_by_id review_id db = Some stored ->
  merged_status u stored = "planning" ->
  (0 < merged_rating u stored)%Q ->
  snd (patch_api_reviews db review_id u) = db
  /\ ((forall q, ReviewUpdate.rating u = Some q -> rating_out_of_range q = false) ->
      PlanningMustBeUnrated (fst (patch_api_reviews db review_id u))).
Proof.
  intros Hsel Hst Hr.
  pose proof (update_review_planning_rated db review_id u stored Hsel Hst Hr) as E.
  assert (Hresp : PlanningMustBeUnrated (fst (update_review db review_id u)))
    by now rewrite E.
  assert (Hdb : snd (update_review db review_id u) = db) by now rewrite E.
  clear E.
  unfold patch_api_reviews, ReviewUpdate.parse, ReviewUpdate.validate_rating.
  destruct u as [[q|] text st]; simpl in *.
  - destruct (rating_out_of_range q) eqn:Eq; simpl.
    + split; [reflexivity|]. intros Hin. specialize (Hin q eq_refl). congruence.
    + split; [exact Hdb|]. intros _. exact Hresp.
  - split; [exact Hdb|]. intros _. exact Hresp.
Qed.

Lemma assign_id (r : review_row) (s : Sql.assignment) :
  r_id (Sql.assign r s) = r_id r.
Proof. destruct s; reflexivity. Qed.

Lemma fold_assign_id (sets : list Sql.assignment) (r : review_row) :
  r_id (fold_left Sql.assign sets r) = r_id r.
Proof.
  revert r. induction sets as [|s sets IH]; intros r; simpl; [reflexivity|].
  rewrite IH. apply assign_id.
Qed.

Lemma fold_assign_status (sets : list Sql.assignment) (r : review_row) :
  (forall v, ~ In (Sql.SetStatus v) sets) ->
  r_status (fold_left Sql.assign sets r) = r_status r.
Proof.
  revert r. induction sets as [|s sets IH]; intros r H; simpl; [reflexivity|].
  rewrite IH.
  - destruct s; try reflexivity. exfalso. apply (H v). now left.
  - intros v Hv. apply (H v). now right.
Qed.

(** After a successful UPDATE the row selected by the id is the old one
    with the assignments applied. *)
Lemma update_rows_select (sets : list Sql.assignment) (id : Z)
    (rs rs' : list review_row) :
  Sql.update_rows sets id rs = SqlOk rs' ->
  find (fun r => r_id r =? id) rs'
  = option_map (fold_left Sql.assign sets) (find (fun r => r_id r =? id) rs).
Proof.
  revert rs'. induction rs as [|r rs IH]; intros rs' H; simpl in H.
  - injection H as <-. reflexivity.
  - destruct (r_id r =? id) eqn:E.
    + destruct (Sql.check_review _); [discriminate|].
      destruct (Sql.update_rows sets id rs); [|discriminate].
      injection H as <-. simpl. rewrite fold_assign_id, E. reflexivity.
    + destruct (Sql.update_rows sets id rs) as [rest|]; [|discriminate].
      injection H as <-. simpl. rewrite E. now apply IH.
Qed.

Lemma update_parts_without_status (u : ReviewUpdate.t) (v : string) :
  truthy (ReviewUpdate.status u) = false -> ~ In (Sql.SetStatus v) (update_parts u).
Proof.
  unfold update_parts. intros Ht Hin.
  destruct (ReviewUpdate.status u) as [[|c st]|]; try discriminate;
    destruct (ReviewUpdate.rating u), (ReviewUpdate.review_text u);
    simpl in *; intuition discriminate.
Qed.

(** Whatever a partial update without a usable status does, the stored
    status of the Review is afterwards what it was. *)
Lemma update_review_keeps_status (db : database) (review_id : Z)
    (u : ReviewUpdate.t) (stored : review_row) :
  truthy (ReviewUpdate.status u) = false ->
  Sql.select_review_by_id review_id db = Some stored ->
  exists r,
    Sql.select_review_by_id review_id (snd (update_review db review_id u)) = Some r
    /\ r_status r = r_status stored.
Proof.
  intros Ht Hsel. unfold update_review.
  rewrite (select_review_binds _ _ _ Hsel). cbn [negb]. rewrite Hsel.
  destruct (_ && _); [exists stored; simpl; auto|].
  destruct (update_parts u) as [|p parts] eqn:Ep.
  - rewrite Hsel. exists stored. simpl. auto.
  - rewrite <- Ep. unfold Sql.update_review.
    destruct (Sql.update_rows (update_parts u) review_id (reviews db)) as [rs|msg] eqn:Eu.
    + pose proof (update_rows_select _ _ _ _ Eu) as Hf.
      set (db' := mk_database (anime db) rs (seq_anime db) (seq_reviews db)).
      assert (Hsel' : Sql.select_review_by_id review_id db'
                      = Some (fold_left Sql.assign (update_parts u) stored)).
      { unfold Sql.select_review_by_id in *. simpl. now rewrite Hf, Hsel. }
      rewrite Hsel'. simpl. rewrite Hsel'.
      eexists. split; [reflexivity|].
      apply fold_assign_status. intros v. now apply update_parts_without_status.
    + exists stored. simpl. auto.
Qed.

(** C10: in a partial update the status [""] behaves as an absent
    status: the effective status of the merged-view check is the stored
    one, no [status = ?] is part of the UPDATE, the request does exactly
    what the same request without a status does, and the stored status
    of the Review is unchanged afterwards. *)
Theorem update_review_empty_status_is_absent :
  forall (db : database) (review_id : Z) (u : ReviewUpdate.t),
    ReviewUpdate.status u = Some "" ->
    (forall current, current_status u current = r_status current)
    /\ (forall v, ~ In (Sql.SetStatus v) (update_parts u))
    /\ update_review db review_id u = update_review db review_id (without_status u)
    /\ (forall stored,
          Sql.select_review_by_id review_id db = Some stored ->
          exists r,
            Sql.select_review_by_id review_id (snd (update_review db review_id u))
            = Some r
            /\ r_status r = r_status stored).
Proof.
  intros db review_id u Hs.
  assert (Ht : truthy (ReviewUpdate.status u) = false) by now rewrite Hs.
  split; [|split; [|split]].
  - intros current. unfold current_status. now rewrite Hs.
  - intros v. now apply update_parts_without_status.
  - unfold update_review, current_status, new_rating, update_parts, without_status.
    rewrite Hs. reflexivity.
  - intros stored Hsel. now apply update_review_keeps_status.
Qed.

Lemma update_review_empty_status_is_absent_witness :
  fst (update_review naruto_reviewed_db 1 status_empty_rating_7)
  = Ok (mk_review_row 1 1 "John" 7 None "watched" 101)
  /\ update_review naruto_reviewed_db 1 status_empty_rating_7
     = update_review naruto_reviewed_db 1 (without_status status_empty_rating_7).
Proof.
  split; [reflexivity|].
  apply (update_review_empty_status_is_absent naruto_reviewed_db 1
           status_empty_rating_7 eq_refl).
Defined.

(** ** ORDER BY *)

Lemma insert_by_perm {A : Type} (before : A -> A -> bool) (x : A) (l : list A) :
  Permutation (Sql.insert_by before x l) (x :: l).
Proof.
  induction l as [|y l IH]; simpl; [apply Permutation_refl|].
  destruct (before x y); [apply Permutation_refl|].
  apply perm_trans with (y :: x :: l); [now apply perm_skip | apply perm_swap].
Qed.

Lemma order_by_perm {A : Type} (before : A -> A -> bool) (l : list A) :
  Permutation (Sql.order_by before l) l.
Proof.
  unfold Sql.order_by. induction l as [|x l IH]; simpl; [apply perm_nil|].
  apply perm_trans with (x :: fold_right (Sql.insert_by before) [] l).
  - apply insert_by_perm.
  - now apply perm_skip.
Qed.

Section OrderBySorted.

Context {A : Type} (before : A -> A -> bool).
Hypothesis before_total : forall x y, before x y = true \/ before y x = true.

Lemma insert_by_sorted (x : A) (l : list A) :
  Sorted (fun a b => before a b = true) l ->
  Sorted (fun a b => before a b = true) (Sql.insert_by before x l).
Proof.
  induction l as [|y l IH]; simpl; intros Hs.
  - constructor; constructor.
  - destruct (before x y) eqn:E.
    + constructor; [exact Hs|]. constructor. exact E.
    + inversion Hs as [|? ? Hs' Hhd]; subst. constructor; [now apply IH|].
      destruct l as [|z l]; simpl.
      * constructor. destruct (before_total x y); [congruence | assumption].
      * destruct (before x z).
        -- constructor. destruct (before_total x y); [congruence | assumption].
        -- constructor. now inversion Hhd.
Qed.

Lemma order_by_sorted (l : list A) :
  Sorted (fun a b => before a b = true) (Sql.order_by before l).
Proof.
  unfold Sql.order_by. induction l as [|x l IH]; simpl; [constructor|].
  now apply insert_by_sorted.
Qed.

End OrderBySorted.

(** ** Aggregation *)

Lemma non_null_map_Some {A B : Type} (f : A -> B) (l : list A) :
  Sql.non_null (map (fun x => Some (f x)) l) = map f l.
Proof.
  unfold Sql.non_null. induction l as [|x l IH]; simpl; [reflexivity|].
  now rewrite IH.
Qed.


Lemma left_join_reviews_of (a : anime_row) (db : database) :
  filter (fun r => a_id a =? r_anime_id r) (reviews db) = reviews_of (a_id a) db.
Proof.
  unfold reviews_of. apply filter_ext. intros r. apply Z.eqb_sym.
Qed.



Lemma left_join_review_ids (a : anime_row) (db : database) :
  Sql.non_null (map (option_map r_id) (left_join_reviews a db))
  = map r_id (reviews_of (a_id a) db).
Proof.
  unfold left_join_reviews. rewrite left_join_reviews_of.
  destruct (reviews_of (a_id a) db) as [|r rs]; [reflexivity|].
  rewrite map_map. apply (non_null_map_Some r_id).
Qed.


Lemma aggregate_row_total (db : database) (a : anime_row) :
  AnimeResponse.total_reviews (aggregate_row db a)
  = spec_total_reviews (reviews_of (a_id a) db).
Proof.
  unfold aggregate_row, spec_total_reviews, Sql.count.
  cbn [AnimeResponse.total_reviews].
  rewrite left_join_review_ids. now rewrite length_map.
Qed.

(** ** Means in double precision *)




(** The three ratings of the example are doubles, the ones that the
    decimals 0.1, 0.2 and 0.3 are read as. *)
Example tenth_is_a_double :
  Real.of_Q (1 # 10) = Real.of_Q tenth
  /\ Real.value (Real.of_Q tenth) = Some (7205759403792794 # 72057594037927936)
  /\ (7205759403792794 # 72057594037927936 == tenth)%Q
  /\ Real.of_Q (2 # 10) = Real.of_Q fifth
  /\ Real.of_Q (3 # 10) = Real.of_Q three_tenths.
Proof. repeat split; vm_compute; reflexivity. Qed.








(** The example of the specification in double precision: the watched
    ratings 8 and 10 give the double 9.0. *)
Example naruto_average_rating_real :
  exists x q,
    average_rating_real naruto_reviewed_db (mk_anime_row 1 "Naruto" None 100)
    = Some x
    /\ Real.value x = Some q
    /\ (q == 9)%Q.
Proof.
  exists (S754_finite false 5066549580791808 (-49)).
  exists (5066549580791808 # 562949953421312).
  repeat split; vm_compute; reflexivity.
Qed.





(** The example of the specification: Reviews (watched, 8),
    (watched, 10), (planning, 0) give the mean 9 and three reviews. *)
Example naruto_aggregate :
  exists resp,
    fst (get_anime naruto_reviewed_db 1) = Ok resp
    /\ AnimeResponse.average_rating (AnimeWithReviews.anime resp) = Some (18 # 2)
    /\ (18 # 2 == 9)%Q
    /\ AnimeResponse.total_reviews (AnimeWithReviews.anime resp) = 3.
Proof. eexists. repeat split. Qed.

(** ** Ranking *)

Lemma where_over_join {T U : Type} (keep : U -> bool) (rows_of : T -> list U)
    (ts : list T) :
  flat_map (fun t => filter keep (rows_of t)) ts = filter keep (flat_map rows_of ts).
Proof.
  induction ts as [|t ts IH]; simpl; [reflexivity|].
  now rewrite filter_app, IH.
Qed.

Lemma map_flat_map {A B C : Type} (g : B -> C) (f : A -> list B) (l : list A) :
  map g (flat_map f l) = flat_map (fun x => map g (f x)) l.
Proof.
  induction l as [|x l IH]; simpl; [reflexivity|].
  now rewrite map_app, IH.
Qed.

Lemma flat_map_filter {A B : Type} (p : A -> bool) (f : A -> list B) (l : list A) :
  flat_map f (filter p l) = flat_map (fun x => if p x then f x else []) l.
Proof.
  induction l as [|x l IH]; simpl; [reflexivity|].
  destruct (p x); simpl; now rewrite IH.
Qed.

Lemma in_inner_join (db : database) (a : anime_row) (r : review_row) :
  In (a, r) (inner_join db)
  <-> In a (anime db) /\ In r (reviews db) /\ r_anime_id r = a_id a.
Proof.
  unfold inner_join. rewrite in_flat_map. split.
  - intros [a' [Ha Hin]]. apply in_map_iff in Hin.
    destruct Hin as [r' [Heq Hr]]. injection Heq as -> ->.
    apply filter_In in Hr. destruct Hr as [Hr He].
    apply Z.eqb_eq in He. auto.
  - intros [Ha [Hr He]]. exists a. split; [exact Ha|].
    apply in_map. apply filter_In. split; [exact Hr|]. apply Z.eqb_eq. auto.
Qed.

Lemma in_watched_rows (db : database) (a : anime_row) (r : review_row) :
  In (a, r) (watched_rows db)
  <-> In a (anime db) /\ In r (reviews db) /\ r_anime_id r = a_id a
      /\ r_status r = "watched".
Proof.
  unfold watched_rows. rewrite filter_In, in_inner_join.
  unfold is_watched. simpl. rewrite String.eqb_eq. tauto.
Qed.

Lemma group_of_one_title (a : anime_row) (k : string) (rs : list review_row) :
  map snd (filter (fun j => String.eqb (normalized_title j) k)
                  (filter is_watched (map (pair a) rs)))
  = if String.eqb (title_key a) k then filter is_watched_review rs else [].
Proof.
  induction rs as [|r rs IH]; simpl.
  - now destruct (String.eqb (title_key a) k).
  - unfold is_watched at 1. unfold is_watched_review at 1. simpl.
    destruct (String.eqb (r_status r) "watched"); simpl; [|exact IH].
    unfold normalized_title at 1. simpl. fold (title_key a).
    destruct (String.eqb (title_key a) k); simpl; [now f_equal | exact IH].
Qed.

(** The group of a key, read on the reviews: the watched reviews of the
    titles with that key. *)
Lemma group_of_reviews (k : string) (db : database) :
  map snd (group_of k (watched_rows db)) = watched_reviews_of_key k db.
Proof.
  unfold group_of, watched_rows, inner_join, watched_reviews_of_key.
  rewrite <- !where_over_join, map_flat_map, flat_map_filter.
  apply flat_map_ext. intros a.
  rewrite left_join_reviews_of. apply group_of_one_title.
Qed.

Lemma avg_of_values_map {A : Type} (f : A -> Q) (l : list A) :
  Sql.avg (map (fun x => Some (f x)) l)
  = match l with
    | [] => None
    | _ => Some (Sql.total (map f l) / inject_Z (Z.of_nat (List.length l)))%Q
    end.
Proof.
  unfold Sql.avg. rewrite (non_null_map_Some f).
  destruct l as [|x l]; [reflexivity|].
  cbn [map List.length]. now rewrite length_map.
Qed.

Lemma group_row_of_key (pick : bare_choice) (k : string) (rows : list joined_row) :
  In k (map normalized_title rows) ->
  exists x g,
    group_of k rows = x :: g
    /\ group_row pick k rows
       = [ StatsRow.mk k (a_title (fst (pick x g)))
             (Sql.avg (map (fun j => Some (r_rating (snd j))) (x :: g)))
             (Sql.count (map (fun j => Some (r_id (snd j))) (x :: g))) ].
Proof.
  intros Hk. apply in_map_iff in Hk. destruct Hk as [j [Hj Hin]].
  unfold group_row. destruct (group_of k rows) as [|x g] eqn:E.
  - exfalso. assert (Hg : In j (group_of k rows)).
    { apply filter_In. split; [exact Hin|]. now apply String.eqb_eq. }
    rewrite E in Hg. exact Hg.
  - exists x, g. split; reflexivity.
Qed.

Lemma groups_keys (pick : bare_choice) (rows : list joined_row) (ks : list string) :
  (forall k, In k ks -> In k (map normalized_title rows)) ->
  map StatsRow.normalized_title (flat_map (fun k => group_row pick k rows) ks) = ks.
Proof.
  induction ks as [|k ks IH]; intros H; simpl; [reflexivity|].
  destruct (group_row_of_key pick k rows (H k (or_introl eq_refl))) as [x [g [_ ->]]].
  simpl. f_equal. apply IH. intros k' Hk'. apply H. now right.
Qed.

(** Every row before HAVING comes from a key with a non-empty group. *)
Lemma in_groups (pick : bare_choice) (rows : list joined_row) (ks : list string)
    (row : StatsRow.t) :
  In row (flat_map (fun k => group_row pick k rows) ks) ->
  exists x g,
    group_of (StatsRow.normalized_title row) rows = x :: g
    /\ row = StatsRow.mk (StatsRow.normalized_title row)
               (a_title (fst (pick x g)))
               (Sql.avg (map (fun j => Some (r_rating (snd j))) (x :: g)))
               (Sql.count (map (fun j => Some (r_id (snd j))) (x :: g))).
Proof.
  intros H. apply in_flat_map in H. destruct H as [k [_ Hrow]].
  unfold group_row in Hrow. destruct (group_of k rows) as [|x g] eqn:E; [contradiction|].
  destruct Hrow as [<-|[]]. simpl. exists x, g. split; [exact E | reflexivity].
Qed.

Lemma having_keeps_groups (pick : bare_choice) (rows : list joined_row)
    (ks : list string) :
  filter (fun g => 0 <? StatsRow.review_count g)
         (flat_map (fun k => group_row pick k rows) ks)
  = flat_map (fun k => group_row pick k rows) ks.
Proof.
  apply filter_all. intros row Hrow.
  destruct (in_groups _ _ _ _ Hrow) as [x [g [_ ->]]].
  cbn [StatsRow.review_count]. apply Z.ltb_lt. unfold Sql.count.
  rewrite (non_null_map_Some (fun j => r_id (snd j))), length_map.
  cbn [List.length]. lia.
Qed.

(** The rows of [get_stats] are the groups, one per key, reordered. *)
Lemma stats_rows_perm (pick : bare_choice) (db : database) :
  Permutation (stats_rows pick db)
    (flat_map (fun k => group_row pick k (watched_rows db))
              (nodup string_dec (map normalized_title (watched_rows db)))).
Proof.
  unfold stats_rows. rewrite having_keeps_groups. apply order_by_perm.
Qed.

Lemma stats_rows_keys (pick : bare_choice) (db : database) :
  Permutation (map StatsRow.normalized_title (stats_rows pick db))
    (nodup string_dec (map normalized_title (watched_rows db))).
Proof.
  rewrite <- (groups_keys pick (watched_rows db)
                (nodup string_dec (map normalized_title (watched_rows db)))).
  - apply Permutation_map. apply stats_rows_perm.
  - intros k Hk. now apply nodup_In in Hk.
Qed.

Lemma null_first_leb_total (a b : option Q) :
  null_first_leb a b = true \/ null_first_leb b a = true.
Proof.
  destruct a as [x|], b as [y|]; simpl; auto.
  destruct (Qlt_le_dec y x) as [H|H].
  - right. apply Qle_bool_iff. now apply Qlt_le_weak.
  - left. now apply Qle_bool_iff.
Qed.

Lemma stats_row_has_mean (pick : bare_choice) (db : database) (row : StatsRow.t) :
  In row (stats_rows pick db) -> exists m, StatsRow.average_rating row = Some m.
Proof.
  intros H. apply (Permutation_in _ (stats_rows_perm pick db)) in H.
  destruct (in_groups _ _ _ _ H) as [x [g [_ ->]]].
  cbn [StatsRow.average_rating].
  rewrite (avg_of_values_map (fun j => r_rating (snd j))). eexists. reflexivity.
Qed.

(** The pair of titles the specification mentions: both normalize to
    the key "naruto". *)
Example naruto_keys_coincide :
  title_key (mk_anime_row 1 "Naruto" None 100) = "naruto"
  /\ title_key (mk_anime_row 2 " naruto " None 101) = "naruto".
Proof. split; reflexivity. Qed.

Lemma Sorted_strengthen {A : Type} (R R' : A -> A -> Prop) (l : list A) :
  (forall x y, In x l -> In y l -> R x y -> R' x y) ->
  Sorted R l -> Sorted R' l.
Proof.
  intros Himp Hs. induction Hs as [|x l Hs IH Hhd]; [constructor|].
  constructor.
  - apply IH. intros y z Hy Hz. apply Himp; now right.
  - destruct Hhd as [|y l' Hxy]; constructor.
    apply Himp; [now left | right; now left | exact Hxy].
Qed.

Lemma stats_rows_sorted (pick : bare_choice) (db : database) :
  Sorted ranked_before (stats_rows pick db).
Proof.
  apply Sorted_strengthen
    with (R := fun x y =>
                 null_first_leb (StatsRow.average_rating y)
                                (StatsRow.average_rating x) = true).
  - intros x y Hx Hy Hle.
    destruct (stats_row_has_mean _ _ _ Hx) as [mx Ex].
    destruct (stats_row_has_mean _ _ _ Hy) as [my Ey].
    exists mx, my. split; [exact Ex|]. split; [exact Ey|].
    rewrite Ex, Ey in Hle. simpl in Hle. now apply Qle_bool_iff.
  - unfold stats_rows.
    apply (order_by_sorted
             (fun x y => null_first_leb (StatsRow.average_rating y)
                                        (StatsRow.average_rating x))).
    intros x y. apply null_first_leb_total.
Qed.

(** What one leaderboard row carries. *)
Lemma stats_row_content (pick : bare_choice) (db : database) (row : StatsRow.t) :
  (forall x g, In (pick x g) (x :: g)) ->
  In row (stats_rows pick db) ->
  let ws := watched_reviews_of_key (StatsRow.normalized_title row) db in
  ws <> []
  /\ StatsRow.average_rating row
     = Some (Sql.total (map r_rating ws) / inject_Z (Z.of_nat (List.length ws)))%Q
  /\ StatsRow.review_count row = Z.of_nat (List.length ws)
  /\ (exists a,
        In a (anime db) /\ has_watched_review a db
        /\ StatsRow.display_title row = a_title a
        /\ title_key a = StatsRow.normalized_title row).
Proof.
  intros Hpick H ws.
  apply (Permutation_in _ (stats_rows_perm pick db)) in H.
  destruct (in_groups _ _ _ _ H) as [x [g [Hg Hrow]]].
  set (k := StatsRow.normalized_title row) in *.
  assert (Hws : ws = map snd (x :: g)).
  { subst ws. rewrite <- group_of_reviews. now rewrite Hg. }
  split; [rewrite Hws; discriminate|].
  split; [|split].
  - rewrite Hrow. cbn [StatsRow.average_rating].
    rewrite (avg_of_values_map (fun j => r_rating (snd j))).
    rewrite Hws, map_map, length_map. reflexivity.
  - rewrite Hrow. cbn [StatsRow.review_count]. unfold Sql.count.
    rewrite (non_null_map_Some (fun j => r_id (snd j))).
    now rewrite Hws, !length_map.
  - assert (Hin : In (pick x g) (group_of k (watched_rows db))).
    { rewrite Hg. apply Hpick. }
    apply filter_In in Hin. destruct Hin as [Hin Hkey].
    destruct (pick x g) as [a r] eqn:Ep.
    apply in_watched_rows in Hin. destruct Hin as [Ha [Hr [Hid Hst]]].
    exists a. split; [exact Ha|]. split; [now exists r|].
    split; [rewrite Hrow; simpl; try rewrite Ep; reflexivity|].
    apply String.eqb_eq in Hkey. exact Hkey.
Qed.

Lemma stats_rows_key_iff (pick : bare_choice) (db : database) (k : string) :
  In k (map StatsRow.normalized_title (stats_rows pick db))
  <-> exists a, In a (anime db) /\ has_watched_review a db /\ title_key a = k.
Proof.
  split.
  - intros H. apply (Permutation_in _ (stats_rows_keys pick db)) in H.
    apply nodup_In in H. apply in_map_iff in H. destruct H as [[a r] [Hk Hin]].
    apply in_watched_rows in Hin. destruct Hin as [Ha [Hr [Hid Hst]]].
    exists a. split; [exact Ha|]. split; [now exists r | exact Hk].
  - intros [a [Ha [[r [Hr [Hid Hst]]] Hk]]].
    apply (Permutation_in _ (Permutation_sym (stats_rows_keys pick db))).
    apply nodup_In. apply in_map_iff. exists (a, r). split; [exact Hk|].
    apply in_watched_rows. auto.
Qed.



Example ranking_example :
  get_stats first_row ranking_db
  = (Ok [StatsEntry.mk "A" (Some (18 # 2)) 2; StatsEntry.mk "B" (Some (6 # 1)) 1],
     ranking_db).
Proof. reflexivity. Qed.

(** ** Keys *)








(** ** The leaderboard in double precision *)



Section OrderBySortedOn.

Context {A : Type} (before : A -> A -> bool) (comparable : A -> Prop).
Hypothesis before_total_on :
  forall x y, comparable x -> comparable y ->
              before x y = true \/ before y x = true.



End OrderBySortedOn.












(** The ranking example of the specification, in double precision:
    A with the mean 9.0 of two reviews, then B with 6.0 of one. *)
Example ranking_example_real :
  get_stats_real first_row ranking_db
  = (Ok [StatsEntryReal.mk "A" (Some (Real.of_Z 9)) 2;
         StatsEntryReal.mk "B" (Some (Real.of_Z 6)) 1],
     ranking_db).
Proof. vm_compute. reflexivity. Qed.

(** Title P is reported with 0.20000000000000004 and ranked before
    Title Q with 0.2, although the arithmetic mean of its ratings is
    below the rating of Q. *)
Example thirds_ranking :
  map StatsRowReal.display_title (stats_rows_real first_row thirds_db) = ["P"; "Q"]
  /\ map StatsRow.display_title (stats_rows first_row thirds_db) = ["Q"; "P"].
Proof. split; vm_compute; reflexivity. Qed.

Example tab_titles_keys :
  ascii_space_key "Naruto" = "naruto"
  /\ ascii_space_key (String (ascii_of_nat 9) "Naruto")
     = String (ascii_of_nat 9) "naruto"
  /\ ascii_space_key " naruto " = "naruto"
  /\ claimed_key (String (ascii_of_nat 9) "Naruto") = "naruto"
  /\ map StatsRowReal.display_title (stats_rows_real first_row tab_db)
     = ["Naruto"; String (ascii_of_nat 9) "Naruto"].
Proof. repeat split; vm_compute; reflexivity. Qed.




(** ** What every reachable database satisfies *)

Lemma titles_unique_filter (keep : anime_row -> bool) (rows : list anime_row) :
  NoDup (map a_title rows) -> NoDup (map a_title (filter keep rows)).
Proof.
  induction rows as [|a rows IH]; simpl; intros H; [constructor|].
  inversion H as [|? ? Hnotin Hnd]; subst.
  destruct (keep a); simpl; [|now apply IH].
  constructor; [|now apply IH].
  intros Hin. apply Hnotin. apply in_map_iff in Hin.
  destruct Hin as [y [Hy Hin]]. apply filter_In in Hin.
  apply in_map_iff. exists y. tauto.
Qed.

Lemma create_review_anime (now : timestamp) (db : database) (review : ReviewCreate.t) :
  anime (snd (create_review now db review)) = anime db.
Proof.
  unfold create_review, Sql.insert_review.
  destruct (Sql.bindable _ _); [|reflexivity]. cbn [negb].
  destruct (Sql.select_anime_by_id _ db); [|reflexivity].
  destruct (_ && _); [reflexivity|].
  destruct (Sql.check_review _); [reflexivity|]. simpl.
  destruct (Sql.select_review_by_id _ _); reflexivity.
Qed.

Lemma update_review_anime (db : database) (review_id : Z) (u : ReviewUpdate.t) :
  anime (snd (update_review db review_id u)) = anime db.
Proof.
  unfold update_review, Sql.update_review.
  destruct (Sql.bindable _ _); [|reflexivity]. cbn [negb].
  destruct (Sql.select_review_by_id review_id db); [|reflexivity].
  destruct (_ && _); [reflexivity|].
  destruct (update_parts u) as [|p parts].
  - destruct (Sql.select_review_by_id review_id db); reflexivity.
  - destruct (Sql.update_rows _ _ _); [|reflexivity].
    destruct (Sql.select_review_by_id _ _); reflexivity.
Qed.

Lemma after_titles_unique (db : database) (req : request) :
  titles_unique db -> titles_unique (after db req).
Proof.
  unfold titles_unique. intros H. destruct req as [now b|id|now b|id b|id]; simpl.
  - unfold post_api_anime. destruct (AnimeCreate.parse b) as [e|[t]]; [exact H|].
    destruct (Sql.title_taken t db) eqn:E.
    + now rewrite create_anime_taken.
    + rewrite create_anime_fresh by exact E. simpl. rewrite map_app. simpl.
      apply (Permutation_NoDup (Permutation_cons_append _ _)).
      constructor; [|exact H].
      intros Hin. apply title_taken_In in Hin. congruence.
  - unfold delete_anime. destruct (Sql.bindable id _); [|exact H].
    now apply titles_unique_filter.
  - unfold post_api_reviews. destruct (ReviewCreate.parse b); [exact H|].
    now rewrite create_review_anime.
  - unfold patch_api_reviews. destruct (ReviewUpdate.parse b); [exact H|].
    now rewrite update_review_anime.
  - unfold delete_review. now destruct (Sql.bindable id _).
Qed.

(** The UNIQUE constraint on anime.title, as an invariant. *)
Lemma reachable_titles_unique (db : database) :
  reachable db -> titles_unique db.
Proof.
  induction 1 as [|db req _ IH]; [constructor|]. now apply after_titles_unique.
Qed.

Lemma update_rows_checked (sets : list Sql.assignment) (id : Z)
    (rs rs' : list review_row) :
  Forall (fun r => Sql.check_review r = None) rs ->
  Sql.update_rows sets id rs = SqlOk rs' ->
  Forall (fun r => Sql.check_review r = None) rs'.
Proof.
  revert rs'. induction rs as [|r rs IH]; intros rs' Hall H; simpl in H.
  - injection H as <-. constructor.
  - inversion Hall as [|? ? Hr Hrs]; subst.
    destruct (r_id r =? id).
    + destruct (Sql.check_review (fold_left Sql.assign sets r)) eqn:Ec; [discriminate|].
      destruct (Sql.update_rows sets id rs) as [rest|]; [|discriminate].
      injection H as <-. constructor; [exact Ec | now apply IH].
    + destruct (Sql.update_rows sets id rs) as [rest|]; [|discriminate].
      injection H as <-. constructor; [exact Hr | now apply IH].
Qed.

Lemma create_review_checked (now : timestamp) (db : database) (review : ReviewCreate.t) :
  reviews_checked db -> reviews_checked (snd (create_review now db review)).
Proof.
  unfold reviews_checked, create_review, Sql.insert_review. intros H.
  destruct (Sql.bindable _ _); [|exact H]. cbn [negb].
  destruct (Sql.select_anime_by_id _ db); [|exact H].
  destruct (_ && _); [exact H|].
  set (row := mk_review_row _ _ _ _ _ _ _).
  destruct (Sql.check_review row) eqn:Ec; [exact H|].
  unfold Sql.select_review_by_id. simpl.
  change (Sql.next_rowid (seq_reviews db) (map r_id (reviews db))) with (r_id row).
  rewrite select_inserted_review by reflexivity. simpl.
  apply Forall_app. split; [exact H|]. now constructor.
Qed.

Lemma update_review_checked (db : database) (review_id : Z) (u : ReviewUpdate.t) :
  reviews_checked db -> reviews_checked (snd (update_review db review_id u)).
Proof.
  unfold reviews_checked, update_review, Sql.update_review. intros H.
  destruct (Sql.bindable _ _); [|exact H]. cbn [negb].
  destruct (Sql.select_review_by_id review_id db); [|exact H].
  destruct (_ && _); [exact H|].
  destruct (update_parts u) as [|p parts].
  - destruct (Sql.select_review_by_id review_id db); exact H.
  - destruct (Sql.update_rows _ _ _) as [rs|] eqn:E; [|exact H].
    pose proof (update_rows_checked _ _ _ _ H E) as H'.
    destruct (Sql.select_review_by_id _ _); exact H'.
Qed.

(** The two CHECK constraints of the reviews table, as an invariant:
    every stored rating is within [0, 10] and every stored status is
    watched or planning. *)
Lemma reachable_reviews_checked (db : database) :
  reachable db -> reviews_checked db.
Proof.
  induction 1 as [|db req _ IH]; [constructor|].
  destruct req as [now b|id|now b|id b|id]; simpl.
  - unfold reviews_checked, post_api_anime.
    destruct (AnimeCreate.parse b) as [e|[t]]; [exact IH|].
    destruct (Sql.title_taken t db) eqn:E.
    + now rewrite create_anime_taken.
    + rewrite create_anime_fresh by exact E. exact IH.
  - unfold reviews_checked. rewrite delete_anime_reviews. exact IH.
  - unfold post_api_reviews. destruct (ReviewCreate.parse b); [exact IH|].
    now apply create_review_checked.
  - unfold patch_api_reviews. destruct (ReviewUpdate.parse b); [exact IH|].
    now apply update_review_checked.
  - destruct (delete_review_cases db id) as [E|E]; rewrite E; [|exact IH].
    unfold reviews_checked. simpl. apply Forall_forall. intros r Hr.
    apply filter_In in Hr. destruct Hr as [Hr _].
    unfold reviews_checked in IH. rewrite Forall_forall in IH. now apply IH.
Qed.

(** In a reachable database a stored rating is never negative, so a
    stored Review with a nonzero rating cannot be moved to planning by
    an update that changes the status alone. *)
Lemma planning_of_rated_review_rejected (db : database) (review_id : Z)
    (stored : review_row) :
  reachable db ->
  Sql.select_review_by_id review_id db = Some stored ->
  ~ (r_rating stored == 0)%Q ->
  update_review db review_id status_planning
  = (HTTPException 400 "Cannot rate anime with planning status", db).
Proof.
  intros Hreach Hsel Hnz.
  apply (update_review_planning_rated db review_id status_planning stored Hsel);
    [reflexivity|].
  change (merged_rating status_planning stored) with (r_rating stored).
  pose proof (reachable_reviews_checked db Hreach) as Hchk.
  unfold reviews_checked in Hchk. rewrite Forall_forall in Hchk.
  assert (Hin : In stored (reviews db)).
  { unfold Sql.select_review_by_id in Hsel. now apply find_some in Hsel. }
  specialize (Hchk stored Hin). unfold Sql.check_review in Hchk.
  destruct (rating_out_of_range (r_rating stored)) eqn:Er; [discriminate|].
  unfold rating_out_of_range in Er. apply orb_false_iff in Er.
  destruct Er as [Hneg _].
  destruct (Qlt_le_dec 0 (r_rating stored)) as [Hpos|Hle]; [exact Hpos|].
  exfalso. apply Qle_lteq in Hle. destruct Hle as [Hlt|Heq]; [|contradiction].
  apply Qltb_lt in Hlt. congruence.
Qed.

(** * Further properties of the handlers *)

(** ** What UPDATE and the update handler do to the rows *)

Lemma fold_update_parts (u : ReviewUpdate.t) (r : review_row) :
  fold_left Sql.assign (update_parts u) r = updated_row u r.
Proof.
  unfold update_parts, updated_row, current_status, new_rating.
  destruct r, u as [[q|] [t|] [[|c s]|]]; reflexivity.
Qed.

Lemma update_rows_map (sets : list Sql.assignment) (id : Z)
    (rs rs' : list review_row) :
  Sql.update_rows sets id rs = SqlOk rs' ->
  rs' = map (fun r => if r_id r =? id then fold_left Sql.assign sets r else r) rs
  /\ (forall r, In r rs -> r_id r = id ->
      Sql.check_review (fold_left Sql.assign sets r) = None).
Proof.
  revert rs'. induction rs as [|r rs IH]; intros rs' H; simpl in H.
  - injection H as <-. split; [reflexivity | intros r []].
  - destruct (r_id r =? id) eqn:E.
    + destruct (Sql.check_review (fold_left Sql.assign sets r)) eqn:Ec; [discriminate|].
      destruct (Sql.update_rows sets id rs) as [rest|]; [|discriminate].
      injection H as <-. destruct (IH rest eq_refl) as [-> Hc].
      split; [simpl; now rewrite E|].
      intros r0 [<-|Hin] Hid; [exact Ec | now apply Hc].
    + destruct (Sql.update_rows sets id rs) as [rest|]; [|discriminate].
      injection H as <-. destruct (IH rest eq_refl) as [-> Hc].
      split; [simpl; now rewrite E|].
      intros r0 [<-|Hin] Hid; [apply Z.eqb_neq in E; contradiction | now apply Hc].
Qed.


Lemma select_unique (rs : list review_row) (id : Z) (stored r : review_row) :
  NoDup (map r_id rs) ->
  find (fun x => r_id x =? id) rs = Some stored ->
  In r rs -> r_id r = id -> r = stored.
Proof.
  induction rs as [|x rs IH]; simpl; intros Hnd Hf Hin Hid; [contradiction|].
  inversion Hnd as [|? ? Hnotin Hnd']; subst.
  destruct (r_id x =? r_id r) eqn:E.
  - injection Hf as <-. destruct Hin as [->|Hin]; [reflexivity|].
    exfalso. apply Hnotin. apply Z.eqb_eq in E. rewrite E. now apply in_map.
  - destruct Hin as [->|Hin]; [now rewrite Z.eqb_refl in E|]. now apply IH.
Qed.

(** [create_review], branch by branch. *)
Lemma create_review_result (now : timestamp) (db : database) (review : ReviewCreate.t) :
  let row :=
    mk_review_row (Sql.next_rowid (seq_reviews db) (map r_id (reviews db)))
      (ReviewCreate.anime_id review) (ReviewCreate.user_name review)
      (ReviewCreate.rating review) (ReviewCreate.review_text review)
      (ReviewCreate.status review) now in
  create_review now db review
  = if negb (Sql.bindable (ReviewCreate.anime_id review) (map a_id (anime db)))
    then (Uncaught "OverflowError", db)
    else
    match Sql.select_anime_by_id (ReviewCreate.anime_id review) db with
    | None => (HTTPException 404 "Anime not found", db)
    | Some _ =>
      if String.eqb (ReviewCreate.status review) "planning"
         && Qltb 0 (ReviewCreate.rating review)
      then (HTTPException 400 "Cannot rate anime with planning status", db)
      else
        match Sql.check_review row with
        | Some msg => (Uncaught msg, db)
        | None =>
            (Ok row,
             {| anime := anime db; reviews := (reviews db ++ [row])%list;
                seq_anime := seq_anime db; seq_reviews := r_id row |})
        end
    end.
Proof.
  intros row. unfold create_review, Sql.insert_review.
  destruct (Sql.bindable _ _); [|reflexivity]. cbn [negb].
  destruct (Sql.select_anime_by_id _ db); [|reflexivity].
  destruct (_ && _); [reflexivity|].
  fold row. destruct (Sql.check_review row); [reflexivity|]. simpl.
  unfold Sql.select_review_by_id. simpl.
  change (Sql.next_rowid (seq_reviews db) (map r_id (reviews db))) with (r_id row).
  now rewrite select_inserted_review.
Qed.

Lemma next_rowid_above_seq (seq : Z) (ids : list Z) : seq < Sql.next_rowid seq ids.
Proof.
  unfold Sql.next_rowid. induction ids as [|i ids IH]; simpl; lia.
Qed.

Lemma filter_keeps_distinct {T K : Type} (key : T -> K) (keep : T -> bool)
    (ts : list T) :
  NoDup (map key ts) -> NoDup (map key (filter keep ts)).
Proof.
  induction ts as [|t ts IH]; simpl; intros Hnd; [constructor|].
  apply NoDup_cons_iff in Hnd. destruct Hnd as [Hfresh Hnd].
  destruct (keep t); simpl; [|auto].
  apply NoDup_cons_iff. split; [|auto].
  rewrite in_map_iff in *. intros [t' [Hk Hin]]. apply Hfresh.
  exists t'. split; [exact Hk|]. now apply filter_In in Hin.
Qed.

Lemma filter_keeps_all {T : Type} (P : T -> Prop) (keep : T -> bool) (ts : list T) :
  Forall P ts -> Forall P (filter keep ts).
Proof.
  rewrite !Forall_forall. intros H t Ht. apply filter_In in Ht. now apply H.
Qed.

Lemma append_keeps_distinct {T K : Type} (key : T -> K) (ts : list T) (t : T) :
  NoDup (map key ts) -> ~ In (key t) (map key ts) -> NoDup (map key (ts ++ [t])).
Proof.
  intros Hnd Hfresh. rewrite map_app. simpl.
  apply (Permutation_NoDup (Permutation_cons_append _ _)). now constructor.
Qed.

Lemma rating_in_range (q : Q) :
  rating_out_of_range q = false <-> (0 <= q /\ q <= 10)%Q.
Proof.
  unfold rating_out_of_range. rewrite orb_false_iff. split.
  - intros [H1 H2]. split.
    + destruct (Qlt_le_dec q 0) as [H|H]; [|exact H].
      apply Qltb_lt in H. congruence.
    + destruct (Qlt_le_dec 10 q) as [H|H]; [|exact H].
      apply Qltb_lt in H. congruence.
  - intros [H1 H2]. split.
    + destruct (Qltb q 0) eqn:E; [|reflexivity]. apply Qltb_lt in E.
      exfalso. exact (Qlt_not_le _ _ E H1).
    + destruct (Qltb 10 q) eqn:E; [|reflexivity]. apply Qltb_lt in E.
      exfalso. exact (Qlt_not_le _ _ E H2).
Qed.

Lemma planning_check (s : string) (q : Q) :
  String.eqb s "planning" && Qltb 0 q = false ->
  s = "planning" -> ~ (0 < q)%Q.
Proof.
  intros H -> Hpos. apply Qltb_lt in Hpos. rewrite Hpos in H. discriminate.
Qed.

(** ** The invariant of the database *)

Lemma create_anime_well_formed (now : timestamp) (db : database) (t : string) :
  well_formed db -> well_formed (snd (create_anime now db {| AnimeCreate.title := t |})).
Proof.
  intros Hwf. destruct (Sql.title_taken t db) eqn:E.
  - now rewrite create_anime_taken.
  - rewrite create_anime_fresh by exact E. simpl.
    destruct Hwf as [[Hids [Htitles Hrids]] [[Haseq Hrseq] Hvalid]].
    set (id := Sql.next_rowid (seq_anime db) (map a_id (anime db))).
    assert (Hseq : seq_anime db < id) by apply next_rowid_above_seq.
    repeat split; simpl.
    + apply (append_keeps_distinct a_id); [exact Hids|]. simpl.
      intros Hin. apply (next_rowid_fresh (seq_anime db)) in Hin. fold id in Hin. lia.
    + apply (append_keeps_distinct a_title); [exact Htitles|]. simpl.
      intros Hin. apply title_taken_In in Hin. congruence.
    + exact Hrids.
    + apply Forall_app. split.
      * eapply Forall_impl; [|exact Haseq]. simpl. intros a Ha. lia.
      * constructor; [simpl; lia | constructor].
    + eapply Forall_impl; [|exact Hrseq]. simpl. intros r [H1 H2]. split; lia.
    + exact Hvalid.
Qed.

Lemma delete_anime_well_formed (db : database) (anime_id : Z) :
  well_formed db -> well_formed (snd (delete_anime db anime_id)).
Proof.
  intros Hwf.
  destruct (delete_anime_cases db anime_id) as [E|E]; rewrite E; [|exact Hwf].
  destruct Hwf as [[Hids [Htitles Hrids]] [[Haseq Hrseq] Hvalid]].
  repeat split; simpl; try assumption.
  - now apply filter_keeps_distinct.
  - now apply filter_keeps_distinct.
  - now apply filter_keeps_all.
Qed.

Lemma delete_review_well_formed (db : database) (review_id : Z) :
  well_formed db -> well_formed (snd (delete_review db review_id)).
Proof.
  intros Hwf.
  destruct (delete_review_cases db review_id) as [E|E]; rewrite E; [|exact Hwf].
  destruct Hwf as [[Hids [Htitles Hrids]] [[Haseq Hrseq] Hvalid]].
  repeat split; simpl; try assumption.
  - now apply filter_keeps_distinct.
  - now apply filter_keeps_all.
  - now apply filter_keeps_all.
Qed.

Lemma create_review_well_formed (now : timestamp) (db : database)
    (review : ReviewCreate.t) :
  well_formed db -> well_formed (snd (create_review now db review)).
Proof.
  intros Hwf. rewrite create_review_result.
  destruct (Sql.bindable _ _); [|exact Hwf]. cbn [negb].
  destruct (Sql.select_anime_by_id _ db) as [a|] eqn:Ea; [|exact Hwf].
  destruct (_ && _) eqn:Ep; [exact Hwf|].
  set (id := Sql.next_rowid (seq_reviews db) (map r_id (reviews db))).
  set (row := mk_review_row id _ _ _ _ _ _).
  destruct (Sql.check_review row) eqn:Ec; [exact Hwf|].
  destruct Hwf as [[Hids [Htitles Hrids]] [[Haseq Hrseq] Hvalid]].
  assert (Hseq : seq_reviews db < id) by apply next_rowid_above_seq.
  repeat split; simpl; try assumption.
  - apply (append_keeps_distinct r_id); [exact Hrids|].
    intros Hin. apply (next_rowid_fresh (seq_reviews db)) in Hin.
    fold id in Hin. simpl in Hin. lia.
  - apply Forall_app. split.
    + eapply Forall_impl; [|exact Hrseq]. simpl. intros r [H1 H2]. split; lia.
    + constructor; [|constructor]. split; [simpl; lia|]. simpl.
      unfold Sql.select_anime_by_id in Ea. apply find_some in Ea.
      destruct Ea as [Hin Hid]. apply Z.eqb_eq in Hid. rewrite <- Hid.
      rewrite Forall_forall in Haseq. now apply Haseq.
  - apply Forall_app. split; [exact Hvalid|].
    constructor; [|constructor]. split; [exact Ec|].
    intros Hst. simpl in Hst. simpl. now apply (planning_check _ _ Ep).
Qed.

Lemma updated_row_planning (u : ReviewUpdate.t) (stored : review_row) :
  String.eqb (current_status u stored) "planning" && Qltb 0 (new_rating u stored) = false ->
  planning_unrated (updated_row u stored).
Proof.
  intros H Hst. simpl in *. now apply (planning_check _ _ H).
Qed.

Lemma update_review_well_formed (db : database) (review_id : Z) (u : ReviewUpdate.t) :
  well_formed db -> well_formed (snd (update_review db review_id u)).
Proof.
  intros Hwf. unfold update_review.
  destruct (Sql.bindable _ _); [|exact Hwf]. cbn [negb].
  destruct (Sql.select_review_by_id review_id db) as [stored|] eqn:Es; [|exact Hwf].
  destruct (_ && _) eqn:Ep; [exact Hwf|].
  destruct (update_parts u) as [|p parts] eqn:Eparts.
  - rewrite Es. exact Hwf.
  - rewrite <- Eparts. unfold Sql.update_review.
    destruct (Sql.update_rows (update_parts u) review_id (reviews db)) as [rs|msg] eqn:Eu;
      [|exact Hwf].
    destruct (update_rows_map _ _ _ _ Eu) as [Hrs Hchk].
    set (db' := mk_database (anime db) rs (seq_anime db) (seq_reviews db)).
    assert (Hdb : well_formed db').
    { subst db'. destruct Hwf as [[Hids [Htitles Hrids]] [[Haseq Hrseq] Hvalid]].
      assert (Hmap : map r_id rs = map r_id (reviews db)).
      { rewrite Hrs, map_map. apply map_ext. intros r.
        destruct (r_id r =? review_id); [apply fold_assign_id | reflexivity]. }
      repeat split; simpl; try assumption.
      - now rewrite Hmap.
      - rewrite Hrs. rewrite Forall_forall in *. intros r' Hr'.
        apply in_map_iff in Hr'. destruct Hr' as [r [<- Hr]].
        specialize (Hrseq r Hr).
        destruct (r_id r =? review_id); [|exact Hrseq].
        rewrite fold_update_parts. exact Hrseq.
      - unfold reviews_valid in *. simpl.
        rewrite Hrs. rewrite Forall_forall in *. intros r' Hr'.
        apply in_map_iff in Hr'. destruct Hr' as [r [<- Hr]].
        destruct (r_id r =? review_id) eqn:E; [|now apply Hvalid].
        apply Z.eqb_eq in E. split; [now apply Hchk|].
        assert (r = stored) by (apply (select_unique (reviews db) review_id); auto).
        subst r. rewrite fold_update_parts. now apply updated_row_planning. }
    destruct (Sql.select_review_by_id review_id db'); exact Hdb.
Qed.

Lemma parsed_update_well_formed (db : database) (review_id : Z) (b : ReviewUpdate.t) :
  well_formed db -> well_formed (snd (patch_api_reviews db review_id b)).
Proof.
  intros Hwf. unfold patch_api_reviews.
  destruct (ReviewUpdate.parse b); [exact Hwf | now apply update_review_well_formed].
Qed.

Lemma after_well_formed (db : database) (req : request) :
  well_formed db -> well_formed (after db req).
Proof.
  intros Hwf. destruct req as [now b|id|now b|id b|id]; simpl.
  - unfold post_api_anime. destruct (AnimeCreate.parse b) as [e|[t]]; [exact Hwf|].
    now apply create_anime_well_formed.
  - now apply delete_anime_well_formed.
  - unfold post_api_reviews. destruct (ReviewCreate.parse b); [exact Hwf|].
    now apply create_review_well_formed.
  - now apply parsed_update_well_formed.
  - now apply delete_review_well_formed.
Qed.

Lemma reachable_well_formed (db : database) : reachable db -> well_formed db.
Proof.
  induction 1 as [|db req _ IH]; [|now apply after_well_formed].
  repeat split; simpl; constructor.
Qed.

(** ** Review creation, from the body to the stored row *)

Lemma parse_review_inr (b : ReviewCreate.body) (review : ReviewCreate.t) :
  ReviewCreate.parse b = inr review ->
  ReviewCreate.body_anime_id b = Some (ReviewCreate.anime_id review)
  /\ ReviewCreate.body_user_name b = Some (ReviewCreate.user_name review)
  /\ ReviewCreate.body_rating b = Some (ReviewCreate.rating review)
  /\ ReviewCreate.body_status b = Some (ReviewCreate.status review)
  /\ ReviewCreate.body_review_text b = ReviewCreate.review_text review
  /\ rating_out_of_range (ReviewCreate.rating review) = false
  /\ status_allowed (ReviewCreate.status review) = true.
Proof.
  unfold ReviewCreate.parse, ReviewCreate.field, ReviewCreate.validate_rating,
    ReviewCreate.validate_status, ReviewCreate.validate_rating_with_status.
  destruct (ReviewCreate.body_anime_id b) as [aid|];
    destruct (ReviewCreate.body_user_name b) as [user|];
    destruct (ReviewCreate.body_rating b) as [q|];
    destruct (ReviewCreate.body_status b) as [s|]; simpl;
    try destruct (rating_out_of_range q) eqn:Eq; simpl;
    try destruct (status_allowed s) eqn:Es; simpl; try discriminate.
  intros H. injection H as <-. simpl. repeat split; assumption.
Qed.

Lemma parse_review_valid (b : ReviewCreate.body) (aid : Z) (user : string) (q : Q)
    (s : string) :
  ReviewCreate.body_anime_id b = Some aid ->
  ReviewCreate.body_user_name b = Some user ->
  ReviewCreate.body_rating b = Some q ->
  ReviewCreate.body_status b = Some s ->
  rating_out_of_range q = false ->
  status_allowed s = true ->
  ReviewCreate.parse b
  = inr (ReviewCreate.mk aid user q (ReviewCreate.body_review_text b) s).
Proof.
  intros Ha Hu Hq Hs Hrange Hst.
  unfold ReviewCreate.parse, ReviewCreate.field, ReviewCreate.validate_rating,
    ReviewCreate.validate_status, ReviewCreate.validate_rating_with_status.
  rewrite Ha, Hu, Hq, Hs, Hrange, Hst. reflexivity.
Qed.

Lemma check_review_none (r : review_row) :
  Sql.check_review r = None
  <-> rating_out_of_range (r_rating r) = false /\ status_allowed (r_status r) = true.
Proof.
  unfold Sql.check_review.
  destruct (rating_out_of_range (r_rating r)); [intuition discriminate|].
  destruct (status_allowed (r_status r)); simpl; intuition discriminate.
Qed.


(** X2: a creation that stores a review answers with the stored row:
    its fields are those of the body, its timestamp the current one and
    its id above every id stored before; the row is appended and nothing
    else changes. *)
Theorem created_review_is_the_request :
  forall (now : timestamp) (db db' : database) (b : ReviewCreate.body)
         (row : review_row),
    post_api_reviews now db b = (Ok row, db') ->
    ReviewCreate.body_anime_id b = Some (r_anime_id row)
    /\ ReviewCreate.body_user_name b = Some (r_user_name row)
    /\ ReviewCreate.body_rating b = Some (r_rating row)
    /\ ReviewCreate.body_status b = Some (r_status row)
    /\ ReviewCreate.body_review_text b = r_review_text row
    /\ r_created_at row = now
    /\ (forall r, In r (reviews db) -> r_id r < r_id row)
    /\ seq_reviews db < r_id row
    /\ reviews db' = (reviews db ++ [row])%list
    /\ anime db' = anime db
    /\ Sql.select_review_by_id (r_id row) db' = Some row.
Proof.
  intros now db db' b row H. unfold post_api_reviews in H.
  destruct (ReviewCreate.parse b) as [e|review] eqn:Ep; [discriminate|].
  destruct (parse_review_inr _ _ Ep) as [Ha [Hu [Hq [Hs [Ht _]]]]].
  rewrite create_review_result in H.
  destruct (Sql.bindable _ _); cbn [negb] in H; [|discriminate].
  destruct (Sql.select_anime_by_id _ db); [|discriminate].
  destruct (_ && _); [discriminate|].
  destruct (Sql.check_review _); [discriminate|].
  injection H as <- <-. simpl.
  repeat split; try assumption.
  - intros r Hr. apply next_rowid_fresh. now apply in_map.
  - apply next_rowid_above_seq.
  - unfold Sql.select_review_by_id. simpl.
    apply (select_inserted_review db (mk_review_row _ _ _ _ _ _ _)). reflexivity.
Qed.

Lemma created_review_is_the_request_witness :
  exists row db',
    post_api_reviews 101 naruto_db john_review = (Ok row, db')
    /\ ReviewCreate.body_rating john_review = Some (r_rating row)
    /\ reviews db' = (reviews naruto_db ++ [row])%list.
Proof.
  eexists; eexists.
  assert (H : post_api_reviews 101 naruto_db john_review
              = (Ok (mk_review_row 1 1 "John" (19 # 2) (Some "Amazing anime")
                       "watched" 101),
                 snd (post_api_reviews 101 naruto_db john_review)))
    by reflexivity.
  split; [exact H|].
  destruct (created_review_is_the_request _ _ _ _ _ H)
    as [_ [_ [Hq [_ [_ [_ [_ [_ [Hrs _]]]]]]]]].
  split; [exact Hq | exact Hrs].
Defined.

(** ** Rejections *)

Lemma parse_invalid_rating (b : ReviewCreate.body) (q : Q) :
  ReviewCreate.body_rating b = Some q ->
  rating_out_of_range q = true ->
  exists errors,
    ReviewCreate.parse b = inl errors
    /\ In ("rating", "Rating must be between 0 and 10") errors.
Proof.
  intros Hq Hbad. unfold ReviewCreate.parse. rewrite Hq.
  set (validators := fun v : Q => _).
  assert (Hf : ReviewCreate.field "rating" (Some q) validators
               = inl [("rating", "Rating must be between 0 and 10")]).
  { unfold ReviewCreate.field, validators, ReviewCreate.validate_rating.
    now rewrite Hbad. }
  rewrite Hf.
  destruct (ReviewCreate.field "anime_id" _ _);
    destruct (ReviewCreate.field "user_name" _ _);
    destruct (ReviewCreate.field "status" _ _);
    eexists; (split; [reflexivity|]);
    simpl; rewrite ?in_app_iff; simpl; auto.
Qed.

(** X3: a rating outside [0, 10] never reaches the handlers: a creation
    body with such a rating is answered with the rating rule's
    validation error whatever its other fields, a partial update with
    such a rating likewise, and the database is untouched. *)
Theorem rating_out_of_range_rejected :
  forall (now : timestamp) (db : database) (q : Q),
    rating_out_of_range q = true ->
    (forall b,
       ReviewCreate.body_rating b = Some q ->
       InvalidRating (fst (post_api_reviews now db b))
       /\ snd (post_api_reviews now db b) = db)
    /\ (forall review_id u,
          ReviewUpdate.rating u = Some q ->
          patch_api_reviews db review_id u
          = (RequestValidationError [("rating", "Rating must be between 0 and 10")],
             db)).
Proof.
  intros now db q Hbad. split.
  - intros b Hq. destruct (parse_invalid_rating b q Hq Hbad) as [errors [Hp Hin]].
    unfold post_api_reviews. rewrite Hp. simpl. split; [|reflexivity].
    exists errors. split; [reflexivity | exact Hin].
  - intros review_id u Hq.
    unfold patch_api_reviews, ReviewUpdate.parse, ReviewUpdate.validate_rating.
    now rewrite Hq, Hbad.
Qed.

Lemma rating_out_of_range_rejected_witness :
  patch_api_reviews naruto_reviewed_db 1
    {| ReviewUpdate.rating := Some 11%Q; ReviewUpdate.review_text := None;
       ReviewUpdate.status := None |}
  = (RequestValidationError [("rating", "Rating must be between 0 and 10")],
     naruto_reviewed_db).
Proof.
  destruct (rating_out_of_range_rejected 0 naruto_reviewed_db 11%Q eq_refl) as [_ H].
  apply H. reflexivity.
Defined.

(** X4: a creation body that asks for status planning with a rating
    above 0 (and within range) passes body validation, the validator
    [validate_rating_with_status] seeing no status yet; for an existing
    Title it is the handler that answers 400, and nothing is stored. *)
Theorem rated_planning_creation_rejected_by_handler :
  forall (now : timestamp) (db : database) (b : ReviewCreate.body)
         (aid : Z) (user : string) (q : Q) (a : anime_row),
    ReviewCreate.body_anime_id b = Some aid ->
    ReviewCreate.body_user_name b = Some user ->
    ReviewCreate.body_rating b = Some q ->
    ReviewCreate.body_status b = Some "planning" ->
    (0 < q)%Q -> (q <= 10)%Q ->
    Sql.select_anime_by_id aid db = Some a ->
    ReviewCreate.parse b
    = inr (ReviewCreate.mk aid user q (ReviewCreate.body_review_text b) "planning")
    /\ post_api_reviews now db b
       = (HTTPException 400 "Cannot rate anime with planning status", db).
Proof.
  intros now db b aid user q a Ha Hu Hq Hs Hpos Hle Hsel.
  assert (Hrange : rating_out_of_range q = false).
  { apply rating_in_range. split; [now apply Qlt_le_weak | exact Hle]. }
  assert (Hp := parse_review_valid b aid user q "planning" Ha Hu Hq Hs Hrange eq_refl).
  split; [exact Hp|].
  unfold post_api_reviews. rewrite Hp, create_review_result.
  cbn [ReviewCreate.anime_id]. rewrite (select_anime_binds _ _ _ Hsel). simpl.
  rewrite Hsel. apply Qltb_lt in Hpos. now rewrite Hpos.
Qed.

Lemma rated_planning_creation_rejected_by_handler_witness :
  post_api_reviews 101 naruto_db planned_and_rated
  = (HTTPException 400 "Cannot rate anime with planning status", naruto_db).
Proof.
  apply (rated_planning_creation_rejected_by_handler 101 naruto_db planned_and_rated
           1 "Jane" 8%Q (mk_anime_row 1 "Naruto" None 100));
    try reflexivity.
  - unfold Qle. simpl. lia.
Defined.

Lemma get_anime_absent (db : database) (id : Z) :
  Sql.select_anime_by_id id db = None ->
  get_anime db id
  = (if Sql.fits_int64 id then HTTPException 404 "Anime not found"
     else Uncaught "OverflowError", db).
Proof.
  intros Hnone. unfold get_anime. rewrite (absent_anime_binds _ _ Hnone), Hnone.
  now destruct (Sql.fits_int64 id).
Qed.

Lemma create_review_absent (now : timestamp) (db : database)
    (review : ReviewCreate.t) :
  Sql.select_anime_by_id (ReviewCreate.anime_id review) db = None ->
  create_review now db review
  = (if Sql.fits_int64 (ReviewCreate.anime_id review)
     then HTTPException 404 "Anime not found"
     else Uncaught "OverflowError", db).
Proof.
  intros Hnone. unfold create_review.
  rewrite (absent_anime_binds _ _ Hnone), Hnone.
  now destruct (Sql.fits_int64 _).
Qed.

Lemma update_review_absent (db : database) (id : Z) (u : ReviewUpdate.t) :
  Sql.select_review_by_id id db = None ->
  update_review db id u
  = (if Sql.fits_int64 id then HTTPException 404 "Review not found"
     else Uncaught "OverflowError", db).
Proof.
  intros Hnone. unfold update_review.
  rewrite (absent_review_binds _ _ Hnone), Hnone.
  now destruct (Sql.fits_int64 id).
Qed.

(** X5: an id that is not stored leaves the database alone: when it
    fits SQLite's 64-bit INTEGER the answer is 404, for fetching a
    missing Title, for creating a review for a missing Title (even a
    rated planning one, the lookup coming first) and for updating a
    missing review, whatever the update; when it does not fit, binding
    it raises OverflowError and the request ends in a server error. *)
Theorem missing_ids_are_not_found :
  forall (now : timestamp) (db : database) (id : Z),
    (Sql.select_anime_by_id id db = None ->
     get_anime db id
     = (if Sql.fits_int64 id then HTTPException 404 "Anime not found"
        else Uncaught "OverflowError", db)
     /\ (forall review,
           ReviewCreate.anime_id review = id ->
           create_review now db review
           = (if Sql.fits_int64 id then HTTPException 404 "Anime not found"
              else Uncaught "OverflowError", db)))
    /\ (Sql.select_review_by_id id db = None ->
        forall u,
          update_review db id u
          = (if Sql.fits_int64 id then HTTPException 404 "Review not found"
             else Uncaught "OverflowError", db)).
Proof.
  intros now db id. split.
  - intros Hnone. split.
    + now apply get_anime_absent.
    + intros review Hid. subst id. now apply create_review_absent.
  - intros Hnone u. now apply update_review_absent.
Qed.

Lemma missing_ids_are_not_found_witness :
  get_anime naruto_db 2 = (HTTPException 404 "Anime not found", naruto_db)
  /\ update_review naruto_db 1 status_planning
     = (HTTPException 404 "Review not found", naruto_db)
  /\ get_anime naruto_db 9223372036854775808
     = (Uncaught "OverflowError", naruto_db).
Proof.
  destruct (missing_ids_are_not_found 0 naruto_db 2) as [Ha _].
  destruct (missing_ids_are_not_found 0 naruto_db 1) as [_ Hr].
  destruct (missing_ids_are_not_found 0 naruto_db 9223372036854775808)
    as [Hbig _].
  split; [apply Ha; reflexivity|].
  split; [apply Hr; reflexivity|].
  apply Hbig. reflexivity.
Defined.

(** ** Partial update, when it is applied *)





(** ** What holds in every reachable database *)

Lemma naruto_db_reachable : reachable naruto_db.
Proof.
  exact (reachable_step _ (CreateAnime 100 (AnimeCreate.mk_body (Some "Naruto") []))
           reachable_init).
Qed.

Lemma naruto_reviewed_db_reachable : reachable naruto_reviewed_db.
Proof.
  pose (body := fun user rating status =>
          ReviewCreate.mk_body (Some 1) (Some user) (Some rating) None (Some status)).
  pose proof naruto_db_reachable as H0.
  pose proof (reachable_step _ (CreateReview 101 (body "John" 8%Q "watched")) H0) as H1.
  pose proof (reachable_step _ (CreateReview 102 (body "Jane" 10%Q "watched")) H1) as H2.
  exact (reachable_step _ (CreateReview 103 (body "Joe" 0%Q "planning")) H2).
Qed.

Lemma select_of_member {T : Type} (key : T -> Z) (ts : list T) (t : T) :
  NoDup (map key ts) -> In t ts -> find (fun x => key x =? key t) ts = Some t.
Proof.
  induction ts as [|x ts IH]; simpl; intros Hnd Hin; [contradiction|].
  apply NoDup_cons_iff in Hnd. destruct Hnd as [Hfresh Hnd].
  destruct Hin as [->|Hin]; [now rewrite Z.eqb_refl|].
  destruct (key x =? key t) eqn:E; [|now apply IH].
  exfalso. apply Hfresh. apply Z.eqb_eq in E. rewrite E. now apply in_map.
Qed.

(** X7: in every database reachable through the handlers the ids of
    the Titles, their title strings and the ids of the reviews are
    pairwise distinct, so every stored Title and every stored review is
    the row its id selects. *)
Theorem reachable_keys_select :
  forall (db : database),
    reachable db ->
    keys_unique db
    /\ (forall a, In a (anime db) -> Sql.select_anime_by_id (a_id a) db = Some a)
    /\ (forall r, In r (reviews db) -> Sql.select_review_by_id (r_id r) db = Some r).
Proof.
  intros db Hreach.
  destruct (reachable_well_formed db Hreach) as [[Hids [Htitles Hrids]] _].
  split; [repeat split; assumption|]. split.
  - intros a Ha. now apply (select_of_member a_id).
  - intros r Hr. now apply (select_of_member r_id).
Qed.

Lemma reachable_keys_select_witness :
  keys_unique naruto_reviewed_db
  /\ Sql.select_review_by_id 2 naruto_reviewed_db
     = Some (mk_review_row 2 1 "Jane" 10 None "watched" 102).
Proof.
  destruct (reachable_keys_select naruto_reviewed_db naruto_reviewed_db_reachable)
    as [Hkeys [_ Hsel]].
  split; [exact Hkeys|].
  apply (Hsel (mk_review_row 2 1 "Jane" 10 None "watched" 102)).
  simpl. auto.
Defined.

(** X8: every review stored in a reachable database has a rating within
    [0, 10] and the status watched or planning, and a planning review
    has the rating 0. *)
Theorem reachable_reviews_are_valid :
  forall (db : database) (r : review_row),
    reachable db ->
    In r (reviews db) ->
    (0 <= r_rating r)%Q /\ (r_rating r <= 10)%Q
    /\ (r_status r = "watched" \/ r_status r = "planning")
    /\ (r_status r = "planning" -> (r_rating r == 0)%Q).
Proof.
  intros db r Hreach Hin.
  destruct (reachable_well_formed db Hreach) as [_ [_ Hvalid]].
  unfold reviews_valid in Hvalid. rewrite Forall_forall in Hvalid.
  destruct (Hvalid r Hin) as [Hchk Hplan].
  apply check_review_none in Hchk. destruct Hchk as [Hrange Hst].
  apply rating_in_range in Hrange. destruct Hrange as [H0 H10].
  split; [exact H0|]. split; [exact H10|]. split.
  - unfold status_allowed in Hst. apply orb_true_iff in Hst.
    destruct Hst as [H|H]; apply String.eqb_eq in H; auto.
  - intros Hp. specialize (Hplan Hp).
    apply Qle_antisym; [|exact H0]. now apply Qnot_lt_le.
Qed.

Lemma reachable_reviews_are_valid_witness :
  (r_rating (mk_review_row 3 1 "Joe" 0 None "planning" 103%Z) == 0)%Q.
Proof.
  destruct (reachable_reviews_are_valid naruto_reviewed_db
              (mk_review_row 3 1 "Joe" 0 None "planning" 103)
              naruto_reviewed_db_reachable) as [_ [_ [_ H]]].
  - simpl. auto.
  - apply H. reflexivity.
Defined.

(** X9: a PATCH with an empty body is a fetch: in a reachable database
    it answers with the stored review and changes nothing. *)
Theorem empty_update_is_a_fetch :
  forall (db : database) (review_id : Z) (stored : review_row),
    reachable db ->
    Sql.select_review_by_id review_id db = Some stored ->
    patch_api_reviews db review_id empty_update = (Ok stored, db).
Proof.
  intros db review_id stored Hreach Hsel.
  change (patch_api_reviews db review_id empty_update)
    with (update_review db review_id empty_update).
  unfold update_review.
  rewrite (select_review_binds _ _ _ Hsel). cbn [negb]. rewrite Hsel.
  change (current_status empty_update stored) with (r_status stored).
  change (new_rating empty_update stored) with (r_rating stored).
  assert (Hin : In stored (reviews db)).
  { unfold Sql.select_review_by_id in Hsel. now apply find_some in Hsel. }
  destruct (reachable_well_formed db Hreach) as [_ [_ Hvalid]].
  unfold reviews_valid in Hvalid. rewrite Forall_forall in Hvalid.
  destruct (Hvalid stored Hin) as [_ Hplan].
  assert (Hpl : String.eqb (r_status stored) "planning" && Qltb 0 (r_rating stored)
                = false).
  { destruct (String.eqb (r_status stored) "planning") eqn:E; [|reflexivity].
    apply String.eqb_eq in E. specialize (Hplan E). simpl.
    destruct (Qltb 0 (r_rating stored)) eqn:Eq; [|reflexivity].
    apply Qltb_lt in Eq. contradiction. }
  rewrite Hpl. simpl. now rewrite Hsel.
Qed.

Lemma empty_update_is_a_fetch_witness :
  patch_api_reviews naruto_reviewed_db 3 empty_update
  = (Ok (mk_review_row 3 1 "Joe" 0 None "planning" 103), naruto_reviewed_db).
Proof.
  apply (empty_update_is_a_fetch naruto_reviewed_db 3 _ naruto_reviewed_db_reachable).
  reflexivity.
Defined.

(** ** Title creation and the ids it hands out *)


(** Titles that the database keeps apart although their ranking keys
    coincide. *)
Example naruto_variants_are_accepted :
  accepted (fst (post_api_anime 200 naruto_db (AnimeCreate.mk_body (Some " naruto ") [])))
  = true
  /\ accepted (fst (post_api_anime 200 naruto_db (AnimeCreate.mk_body (Some "") [])))
     = true.
Proof. split; reflexivity. Qed.

Lemma no_reviews_aggregate (db : database) (a : anime_row) :
  reviews_of (a_id a) db = [] ->
  aggregate_row db a
  = AnimeResponse.mk (a_id a) (a_title a) (a_description a) None 0 None None
      (a_created_at a).
Proof.
  intros Hnone. unfold aggregate_row, left_join_reviews, reviews_latest_first.
  rewrite left_join_reviews_of, Hnone. reflexivity.
Qed.

(** X11: the id of a newly created Title is above every id handed out
    before, also those of deleted Titles; so no stored review refers to
    it, and fetching the new Title answers the creation response with an
    empty review list.  Reviews that outlived a deleted Title are never
    attached to a later one. *)
Theorem new_title_has_no_reviews :
  forall (now : timestamp) (db db' : database) (b : AnimeCreate.body)
         (resp : AnimeResponse.t),
    reachable db ->
    post_api_anime now db b = (Ok resp, db') ->
    seq_anime db < AnimeResponse.id resp
    /\ (forall a, In a (anime db) -> a_id a < AnimeResponse.id resp)
    /\ (forall r, In r (reviews db') -> r_anime_id r < AnimeResponse.id resp)
    /\ get_anime db' (AnimeResponse.id resp)
       = (Ok {| AnimeWithReviews.anime := resp; AnimeWithReviews.reviews := [] |}, db').
Proof.
  intros now db db' b resp Hreach H.
  destruct (reachable_well_formed db Hreach) as [_ [[Haseq Hrseq] _]].
  unfold post_api_anime, AnimeCreate.parse in H.
  destruct (AnimeCreate.body_title b) as [t|]; [|discriminate].
  destruct (Sql.title_taken t db) eqn:E.
  { rewrite create_anime_taken in H by exact E. discriminate. }
  rewrite create_anime_fresh in H by exact E.
  set (id := Sql.next_rowid (seq_anime db) (map a_id (anime db))) in *.
  assert (Hseq : seq_anime db < id) by apply next_rowid_above_seq.
  injection H as <- <-. simpl.
  rewrite Forall_forall in Haseq, Hrseq.
  assert (Hrefs : forall r, In r (reviews db) -> r_anime_id r < id).
  { intros r Hr. destruct (Hrseq r Hr) as [_ Hle]. lia. }
  split; [exact Hseq|]. split; [|split; [exact Hrefs|]].
  - intros a Ha. specialize (Haseq a Ha). lia.
  - set (row := mk_anime_row id t None now).
    set (db1 := mk_database (anime db ++ [row]) (reviews db) id (seq_reviews db)).
    assert (Hsel : Sql.select_anime_by_id id db1 = Some row).
    { unfold Sql.select_anime_by_id, db1. simpl.
      apply (select_inserted_anime db row). reflexivity. }
    assert (Hnone : reviews_of id db1 = []).
    { unfold reviews_of, db1. simpl.
      destruct (filter (fun r => r_anime_id r =? id) (reviews db)) as [|r rs] eqn:Ef;
        [reflexivity|].
      assert (Hin : In r (filter (fun r => r_anime_id r =? id) (reviews db)))
        by (rewrite Ef; now left).
      apply filter_In in Hin. destruct Hin as [Hr Hid]. apply Z.eqb_eq in Hid.
      specialize (Hrefs r Hr). lia. }
    unfold get_anime.
    rewrite (select_anime_binds _ _ _ Hsel). cbn [negb]. rewrite Hsel.
    rewrite (no_reviews_aggregate db1 row Hnone).
    unfold reviews_latest_first. rewrite Hnone. reflexivity.
Qed.

Lemma new_title_has_no_reviews_witness :
  exists resp db',
    post_api_anime 200 (snd (delete_anime naruto_reviewed_db 1))
      (AnimeCreate.mk_body (Some "Bleach") []) = (Ok resp, db')
    /\ AnimeResponse.id resp = 2
    /\ map r_anime_id (reviews db') = [1; 1; 1]
    /\ get_anime db' 2
       = (Ok {| AnimeWithReviews.anime := resp; AnimeWithReviews.reviews := [] |}, db').
Proof.
  eexists; eexists.
  assert (Hreach : reachable (snd (delete_anime naruto_reviewed_db 1))).
  { exact (reachable_step _ (DeleteAnime 1) naruto_reviewed_db_reachable). }
  assert (H : post_api_anime 200 (snd (delete_anime naruto_reviewed_db 1))
                (AnimeCreate.mk_body (Some "Bleach") [])
              = (Ok (AnimeResponse.mk 2 "Bleach" None None 0 None None 200),
                 snd (post_api_anime 200 (snd (delete_anime naruto_reviewed_db 1))
                        (AnimeCreate.mk_body (Some "Bleach") []))))
    by reflexivity.
  split; [exact H|]. split; [reflexivity|]. split; [reflexivity|].
  destruct (new_title_has_no_reviews _ _ _ _ _ Hreach H) as [_ [_ [_ Hget]]].
  exact Hget.
Defined.

(** ** Reading Titles *)

Lemma latest_first_sorted (aid : Z) (db : database) :
  Sorted (fun x y => r_created_at y <= r_created_at x) (reviews_latest_first aid db).
Proof.
  unfold reviews_latest_first.
  apply Sorted_strengthen
    with (R := fun x y => (r_created_at y <=? r_created_at x) = true).
  - intros x y _ _ H. now apply Z.leb_le.
  - apply (order_by_sorted (fun x y => r_created_at y <=? r_created_at x)).
    intros x y. rewrite !Z.leb_le. lia.
Qed.

(** X12: a fetched Title comes with exactly its reviews, newest first;
    the aggregate agrees with the list: total_reviews is its length and
    the latest review's user and text are those of its first element
    (null for an empty list). *)
Theorem get_anime_reviews_latest_first :
  forall (db db' : database) (anime_id : Z) (resp : AnimeWithReviews.t),
    get_anime db anime_id = (Ok resp, db') ->
    let rs := AnimeWithReviews.reviews resp in
    let agg := AnimeWithReviews.anime resp in
    db' = db
    /\ AnimeResponse.id agg = anime_id
    /\ Permutation rs (reviews_of anime_id db)
    /\ Sorted (fun x y => r_created_at y <= r_created_at x) rs
    /\ AnimeResponse.total_reviews agg = Z.of_nat (List.length rs)
    /\ AnimeResponse.latest_review_user agg = option_map r_user_name (hd_error rs)
    /\ AnimeResponse.latest_review_text agg
       = match rs with
         | [] => None
         | r :: _ => r_review_text r
         end.
Proof.
  intros db db' anime_id resp H. unfold get_anime in H.
  destruct (Sql.bindable _ _); cbn [negb] in H; [|discriminate].
  destruct (Sql.select_anime_by_id anime_id db) as [a|] eqn:Ea; [|discriminate].
  injection H as <- <-. cbv zeta.
  cbn [AnimeWithReviews.reviews AnimeWithReviews.anime].
  assert (Hid : a_id a = anime_id).
  { unfold Sql.select_anime_by_id in Ea. apply find_some in Ea.
    now apply Z.eqb_eq. }
  assert (Hperm : Permutation (reviews_latest_first anime_id db) (reviews_of anime_id db))
    by apply order_by_perm.
  split; [reflexivity|]. split; [exact Hid|]. split; [exact Hperm|].
  split; [apply latest_first_sorted|]. split; [|split].
  - rewrite aggregate_row_total. unfold spec_total_reviews.
    rewrite Hid. f_equal. symmetry. now apply Permutation_length.
  - unfold aggregate_row. cbn [AnimeResponse.latest_review_user]. rewrite Hid.
    now destruct (reviews_latest_first anime_id db).
  - unfold aggregate_row. cbn [AnimeResponse.latest_review_text]. now rewrite Hid.
Qed.

Lemma get_anime_reviews_latest_first_witness :
  exists resp,
    get_anime naruto_reviewed_db 1 = (Ok resp, naruto_reviewed_db)
    /\ map r_id (AnimeWithReviews.reviews resp) = [3; 2; 1]
    /\ AnimeResponse.latest_review_user (AnimeWithReviews.anime resp) = Some "Joe"
    /\ AnimeResponse.total_reviews (AnimeWithReviews.anime resp)
       = Z.of_nat (List.length (AnimeWithReviews.reviews resp)).
Proof.
  eexists.
  assert (H : get_anime naruto_reviewed_db 1
              = (Ok (AnimeWithReviews.mk
                       (aggregate_row naruto_reviewed_db (mk_anime_row 1 "Naruto" None 100))
                       (reviews_latest_first 1 naruto_reviewed_db)),
                 naruto_reviewed_db)) by reflexivity.
  split; [exact H|]. split; [reflexivity|]. split; [reflexivity|].
  destruct (get_anime_reviews_latest_first _ _ _ _ H) as [_ [_ [_ [_ [Ht _]]]]].
  exact Ht.
Defined.

(** X13: the Title list has one row per stored Title, carrying its id
    and title, newest Title first. *)
Theorem get_all_anime_newest_first :
  forall (db : database),
    exists rows,
      get_all_anime db = (Ok rows, db)
      /\ Sorted (fun x y => AnimeResponse.created_at y <= AnimeResponse.created_at x) rows
      /\ List.length rows = List.length (anime db)
      /\ Permutation (map (fun row => (AnimeResponse.id row, AnimeResponse.title row)) rows)
                     (map (fun a => (a_id a, a_title a)) (anime db)).
Proof.
  intros db. eexists. split; [reflexivity|].
  set (before := fun x y => AnimeResponse.created_at y <=? AnimeResponse.created_at x).
  assert (Hperm : Permutation (Sql.order_by before (map (aggregate_row db) (anime db)))
                              (map (aggregate_row db) (anime db)))
    by apply order_by_perm.
  split; [|split].
  - apply Sorted_strengthen with (R := fun x y => before x y = true).
    + intros x y _ _ H. now apply Z.leb_le.
    + apply (order_by_sorted before). intros x y. unfold before.
      rewrite !Z.leb_le. lia.
  - rewrite (Permutation_length Hperm). apply length_map.
  - apply (Permutation_map (fun row => (AnimeResponse.id row, AnimeResponse.title row)))
      in Hperm.
    rewrite map_map in Hperm. exact Hperm.
Qed.

(** ** Means stay within the rating scale *)






(** ** The leaderboard counts every watched review of a stored Title once *)

Lemma total_count_app (l1 l2 : list StatsRow.t) :
  total_count (l1 ++ l2) = total_count l1 + total_count l2.
Proof.
  unfold total_count. induction l1 as [|x l1 IH]; simpl; [reflexivity|].
  rewrite IH. lia.
Qed.

Lemma total_count_perm (l1 l2 : list StatsRow.t) :
  Permutation l1 l2 -> total_count l1 = total_count l2.
Proof.
  unfold total_count. induction 1; simpl; lia.
Qed.

Lemma total_count_one (k t : string) (m : option Q) (c : Z) :
  total_count [StatsRow.mk k t m c] = c.
Proof. unfold total_count. simpl. lia. Qed.

Lemma groups_total_count (pick : bare_choice) (rows : list joined_row)
    (ks : list string) :
  total_count (flat_map (fun k => group_row pick k rows) ks)
  = Z.of_nat (list_sum (map (fun k => List.length (group_of k rows)) ks)).
Proof.
  induction ks as [|k ks IH]; simpl; [reflexivity|].
  rewrite total_count_app, IH, Nat2Z.inj_add. f_equal.
  unfold group_row. destruct (group_of k rows) as [|x g]; [reflexivity|].
  rewrite total_count_one. unfold Sql.count.
  now rewrite (non_null_map_Some (fun j => r_id (snd j))), length_map.
Qed.

Lemma one_key_among (k : string) (ks : list string) :
  NoDup ks -> In k ks ->
  list_sum (map (fun k' => if String.eqb k k' then 1 else 0)%nat ks) = 1%nat.
Proof.
  induction ks as [|k' ks IH]; simpl; intros Hnd Hin; [contradiction|].
  apply NoDup_cons_iff in Hnd. destruct Hnd as [Hfresh Hnd].
  destruct (String.eqb k k') eqn:E.
  - apply String.eqb_eq in E. subst k'.
    assert (Hz : list_sum (map (fun k' => if String.eqb k k' then 1 else 0)%nat ks)
                 = 0%nat).
    { clear IH Hnd Hin. induction ks as [|k' ks IH]; simpl; [reflexivity|].
      destruct (String.eqb k k') eqn:E.
      - apply String.eqb_eq in E. subst k'. exfalso. apply Hfresh. now left.
      - apply IH. intros H. apply Hfresh. now right. }
    now rewrite Hz.
  - destruct Hin as [->|Hin]; [now rewrite String.eqb_refl in E|]. now apply IH.
Qed.

Lemma sum_of_sums {T : Type} (f g : T -> nat) (l : list T) :
  list_sum (map (fun x => f x + g x)%nat l)
  = (list_sum (map f l) + list_sum (map g l))%nat.
Proof.
  induction l as [|x l IH]; simpl; [reflexivity|]. rewrite IH. lia.
Qed.

(** Grouping by key loses and repeats no row. *)
Lemma groups_cover_rows (rows : list joined_row) (ks : list string) :
  NoDup ks ->
  (forall j, In j rows -> In (normalized_title j) ks) ->
  list_sum (map (fun k => List.length (group_of k rows)) ks) = List.length rows.
Proof.
  intros Hnd. induction rows as [|j rows IH]; intros Hin.
  - unfold group_of. simpl. clear Hnd Hin.
    induction ks as [|k ks IHk]; simpl; [reflexivity | exact IHk].
  - rewrite (map_ext _ (fun k => ((if String.eqb (normalized_title j) k then 1 else 0)
                                  + List.length (group_of k rows))%nat)).
    + rewrite sum_of_sums, IH by (intros j' Hj'; apply Hin; now right).
      rewrite one_key_among; [reflexivity | exact Hnd | apply Hin; now left].
    + intros k. unfold group_of. simpl.
      now destruct (String.eqb (normalized_title j) k).
Qed.

Lemma count_of_either {T : Type} (p q : T -> bool) (l : list T) :
  (forall x, p x = true -> q x = false) ->
  List.length (filter (fun x => p x || q x) l)
  = (List.length (filter p l) + List.length (filter q l))%nat.
Proof.
  intros Hpq. induction l as [|x l IH]; simpl; [reflexivity|].
  destruct (p x) eqn:Ep; simpl.
  - rewrite (Hpq x Ep). simpl. now rewrite IH.
  - destruct (q x); simpl; rewrite IH; lia.
Qed.

Lemma watched_pairs_of_title (a : anime_row) (rs : list review_row) :
  List.length (filter is_watched
                 (map (pair a) (filter (fun r => a_id a =? r_anime_id r) rs)))
  = List.length (filter (fun r => is_watched_review r && (a_id a =? r_anime_id r)) rs).
Proof.
  induction rs as [|r rs IH]; simpl; [reflexivity|].
  destruct (a_id a =? r_anime_id r); simpl.
  - unfold is_watched at 1. simpl. unfold is_watched_review at 1.
    destruct (String.eqb (r_status r) "watched"); simpl; now rewrite IH.
  - rewrite andb_false_r. exact IH.
Qed.

Lemma watched_pairs_count (titles : list anime_row) (rs : list review_row) :
  NoDup (map a_id titles) ->
  List.length
    (filter is_watched
       (flat_map (fun a => map (pair a) (filter (fun r => a_id a =? r_anime_id r) rs))
                 titles))
  = List.length
      (filter (fun r => is_watched_review r
                        && existsb (fun a => a_id a =? r_anime_id r) titles) rs).
Proof.
  induction titles as [|a titles IH]; intros Hnd.
  - simpl. rewrite (filter_ext _ (fun _ => false)) by (intros r; apply andb_false_r).
    now induction rs.
  - simpl in Hnd. apply NoDup_cons_iff in Hnd. destruct Hnd as [Hfresh Hnd].
    cbn [flat_map existsb].
    rewrite filter_app, length_app.
    transitivity
      (List.length
         (filter (fun r => is_watched_review r && (a_id a =? r_anime_id r)%Z) rs)
       + List.length
           (filter (fun r => is_watched_review r
                             && existsb (fun a' => (a_id a' =? r_anime_id r)%Z) titles)
                   rs))%nat;
      [f_equal; [apply watched_pairs_of_title | exact (IH Hnd)]|].
    rewrite <- count_of_either.
    + f_equal. apply filter_ext. intros r.
      destruct (is_watched_review r); reflexivity.
    + intros r Hr. apply andb_true_iff in Hr. destruct Hr as [_ Hid].
      apply Z.eqb_eq in Hid.
      destruct (existsb (fun a' => a_id a' =? r_anime_id r) titles) eqn:Ee;
        [|apply andb_false_r].
      exfalso. apply Hfresh. apply existsb_exists in Ee.
      destruct Ee as [a' [Ha' Hid']]. apply Z.eqb_eq in Hid'.
      rewrite Hid, <- Hid'. now apply in_map.
Qed.

(** X15: the review counts of the leaderboard add up to the number of
    stored reviews that are watched and whose Title is stored: each such
    review is counted in exactly one row, and a watched review whose
    Title was deleted is counted in none. *)
Theorem leaderboard_counts_each_watched_review_once :
  forall (pick : bare_choice) (db : database),
    NoDup (map a_id (anime db)) ->
    total_count (stats_rows pick db)
    = Z.of_nat (List.length (filter (counted_review db) (reviews db))).
Proof.
  intros pick db Hnd.
  rewrite (total_count_perm _ _ (stats_rows_perm pick db)).
  rewrite groups_total_count. f_equal.
  rewrite groups_cover_rows.
  - unfold watched_rows, inner_join. now apply watched_pairs_count.
  - apply NoDup_nodup.
  - intros j Hj. apply nodup_In. now apply in_map.
Qed.

Lemma leaderboard_counts_each_watched_review_once_witness :
  total_count (stats_rows first_row (snd (delete_anime ranking_db 1))) = 2.
Proof.
  rewrite (leaderboard_counts_each_watched_review_once first_row
             (snd (delete_anime ranking_db 1))).
  - reflexivity.
  - simpl. repeat (constructor; [simpl; intuition discriminate|]). constructor.
Defined.

(** ** Deleting *)

Lemma select_deleted {T : Type} (key : T -> Z) (id : Z) (ts : list T) :
  find (fun t => key t =? id) (filter (fun t => negb (key t =? id)) ts) = None.
Proof.
  induction ts as [|t ts IH]; simpl; [reflexivity|].
  destruct (key t =? id) eqn:E; simpl; [exact IH|]. now rewrite E.
Qed.

Lemma select_kept {T : Type} (key : T -> Z) (id id' : Z) (ts : list T) :
  id' <> id ->
  find (fun t => key t =? id') (filter (fun t => negb (key t =? id)) ts)
  = find (fun t => key t =? id') ts.
Proof.
  intros Hne. induction ts as [|t ts IH]; simpl; [reflexivity|].
  destruct (key t =? id) eqn:E; simpl.
  - apply Z.eqb_eq in E.
    assert (E' : (key t =? id') = false) by (apply Z.eqb_neq; lia).
    now rewrite E'.
  - destruct (key t =? id'); [reflexivity | exact IH].
Qed.

(** X16: deleting a review removes that review and nothing else: its
    id selects nothing afterwards, so a later update of it answers 404
    whatever the update (for an id outside SQLite's 64-bit INTEGER,
    which no review has, binding it raises OverflowError instead);
    every other review is selected as before, and the Titles are
    untouched. *)
Theorem delete_review_removes_only_that_review :
  forall (db : database) (review_id : Z),
    let db' := snd (delete_review db review_id) in
    Sql.select_review_by_id review_id db' = None
    /\ (forall u,
          update_review db' review_id u
          = (if Sql.fits_int64 review_id
             then HTTPException 404 "Review not found"
             else Uncaught "OverflowError", db'))
    /\ (forall id', id' <> review_id ->
          Sql.select_review_by_id id' db' = Sql.select_review_by_id id' db)
    /\ (forall r, In r (reviews db') <-> In r (reviews db) /\ r_id r <> review_id)
    /\ anime db' = anime db.
Proof.
  intros db review_id db'. unfold db'. rewrite delete_review_storage.
  assert (Hnone : Sql.select_review_by_id review_id
                    (Sql.delete_review review_id db) = None)
    by apply (select_deleted r_id).
  split; [exact Hnone|]. split; [|split; [|split]].
  - intros u. now apply update_review_absent.
  - intros id' Hne. now apply (select_kept r_id).
  - intros r. simpl. rewrite filter_In, negb_true_iff, Z.eqb_neq. tauto.
  - reflexivity.
Qed.

Lemma delete_review_removes_only_that_review_witness :
  Sql.select_review_by_id 2 (snd (delete_review naruto_reviewed_db 1))
  = Some (mk_review_row 2 1 "Jane" 10 None "watched" 102)
  /\ update_review (snd (delete_review naruto_reviewed_db 1)) 1 empty_update
     = (HTTPException 404 "Review not found",
        snd (delete_review naruto_reviewed_db 1)).
Proof.
  destruct (delete_review_removes_only_that_review naruto_reviewed_db 1)
    as [_ [Hgone [Hkept _]]].
  split.
  - rewrite (Hkept 2) by discriminate. reflexivity.
  - exact (Hgone empty_update).
Defined.

Lemma aggregate_row_same_reviews (db db' : database) (a : anime_row) :
  reviews db' = reviews db -> aggregate_row db' a = aggregate_row db a.
Proof.
  intros H. unfold aggregate_row, left_join_reviews, reviews_latest_first, reviews_of.
  now rewrite H.
Qed.

(** X17: a deleted Title is gone from every read: fetching it answers
    404 (for an id outside SQLite's 64-bit INTEGER, which no Title has,
    binding it raises OverflowError instead), the Title list and the
    leaderboard show only Titles that are still stored, and the page of
    every other Title is what it was. *)
Theorem deleted_title_is_gone_from_reads :
  forall (db : database) (anime_id : Z),
    let db' := snd (delete_anime db anime_id) in
    get_anime db' anime_id
    = (if Sql.fits_int64 anime_id then HTTPException 404 "Anime not found"
       else Uncaught "OverflowError", db')
    /\ (forall id', id' <> anime_id ->
          fst (get_anime db' id') = fst (get_anime db id'))
    /\ (forall rows row,
          fst (get_all_anime db') = Ok rows -> In row rows ->
          AnimeResponse.id row <> anime_id)
    /\ (forall pick row,
          (forall x g, In (pick x g) (x :: g)) ->
          In row (stats_rows pick db') ->
          exists a,
            In a (anime db) /\ a_id a <> anime_id
            /\ StatsRow.display_title row = a_title a).
Proof.
  intros db anime_id db'. unfold db'. rewrite delete_anime_storage.
  set (db1 := Sql.delete_anime get_db anime_id db).
  assert (Hkept : forall a, In a (anime db1) -> In a (anime db) /\ a_id a <> anime_id).
  { intros a Ha. unfold db1 in Ha. simpl in Ha. apply filter_In in Ha.
    destruct Ha as [Ha Hid]. apply negb_true_iff, Z.eqb_neq in Hid. auto. }
  split; [|split; [|split]].
  - apply get_anime_absent. apply (select_deleted a_id).
  - intros id' Hne.
    assert (Hsel : Sql.select_anime_by_id id' db1 = Sql.select_anime_by_id id' db)
      by now apply (select_kept a_id).
    destruct (Sql.select_anime_by_id id' db) as [a|] eqn:Ea.
    + unfold get_anime.
      rewrite (select_anime_binds _ _ _ Hsel), (select_anime_binds _ _ _ Ea).
      cbn [negb]. rewrite Hsel, Ea.
      simpl. now rewrite (aggregate_row_same_reviews db db1 a).
    + now rewrite (get_anime_absent _ _ Hsel), (get_anime_absent _ _ Ea).
  - intros rows row Hrows Hrow. simpl in Hrows. injection Hrows as <-.
    apply (Permutation_in _ (order_by_perm _ _)) in Hrow.
    apply in_map_iff in Hrow. destruct Hrow as [a [<- Ha]].
    now apply Hkept.
  - intros pick row Hpick Hrow.
    destruct (stats_row_content pick db1 row Hpick Hrow) as [_ [_ [_ [a [Ha [_ [Ht _]]]]]]].
    exists a. destruct (Hkept a Ha). auto.
Qed.

Lemma deleted_title_is_gone_from_reads_witness :
  get_anime (snd (delete_anime ranking_db 2)) 2
  = (HTTPException 404 "Anime not found", snd (delete_anime ranking_db 2))
  /\ fst (get_stats first_row (snd (delete_anime ranking_db 2)))
     = Ok [StatsEntry.mk "B" (Some (6 # 1)) 1].
Proof.
  destruct (deleted_title_is_gone_from_reads ranking_db 2) as [H _].
  split; [exact H | reflexivity].
Defined.

(** ** Repeating an update *)








(** ** The leaderboard and the Title pages *)




(** ** Creating and deleting again *)

Lemma delete_appended {T : Type} (key : T -> Z) (ts : list T) (t : T) :
  (forall x, In x ts -> key x < key t) ->
  filter (fun x => negb (key x =? key t)) (ts ++ [t]) = ts.
Proof.
  intros Hlt. rewrite filter_app. simpl. rewrite Z.eqb_refl. simpl.
  rewrite app_nil_r. apply filter_all. intros x Hx.
  apply negb_true_iff, Z.eqb_neq. specialize (Hlt x Hx). lia.
Qed.

(** X20: deleting a review right after its creation restores the
    tables as they were, but not the counter: the id is not handed out
    again, a later review gets a larger one. *)
Theorem create_then_delete_review :
  forall (now : timestamp) (db db' : database) (b : ReviewCreate.body)
         (row : review_row),
    post_api_reviews now db b = (Ok row, db') ->
    let db'' := snd (delete_review db' (r_id row)) in
    reviews db'' = reviews db
    /\ anime db'' = anime db
    /\ seq_reviews db'' = r_id row
    /\ (forall now2 b2 row2 db3,
          post_api_reviews now2 db'' b2 = (Ok row2, db3) -> r_id row < r_id row2).
Proof.
  intros now db db' b row H db''. unfold post_api_reviews in H.
  destruct (ReviewCreate.parse b) as [e|review]; [discriminate|].
  rewrite create_review_result in H.
  destruct (Sql.bindable _ _); cbn [negb] in H; [|discriminate].
  destruct (Sql.select_anime_by_id _ db); [|discriminate].
  destruct (_ && _); [discriminate|].
  destruct (Sql.check_review _); [discriminate|].
  injection H as <- <-. subst db''.
  set (id := Sql.next_rowid (seq_reviews db) (map r_id (reviews db))).
  set (row := mk_review_row id _ _ _ _ _ _).
  rewrite delete_review_bound.
  2:{ apply bindable_member. cbn [reviews]. rewrite map_app.
      apply in_or_app. right. now left. }
  cbn [snd]. unfold Sql.delete_review.
  cbn [reviews anime seq_reviews seq_anime r_id].
  assert (Hrs : filter (fun r => negb (r_id r =? id)) (reviews db ++ [row]) = reviews db).
  { apply (delete_appended r_id (reviews db) row). intros x Hx.
    apply next_rowid_fresh. now apply in_map. }
  split; [exact Hrs|]. split; [reflexivity|]. split; [reflexivity|].
  intros now2 b2 row2 db3 H2. unfold post_api_reviews in H2.
  destruct (ReviewCreate.parse b2) as [e|review2]; [discriminate|].
  rewrite create_review_result in H2. cbn [anime reviews seq_reviews] in H2.
  destruct (Sql.bindable _ _); cbn [negb] in H2; [|discriminate].
  destruct (Sql.select_anime_by_id _ _); [|discriminate].
  destruct (_ && _); [discriminate|].
  destruct (Sql.check_review _); [discriminate|].
  injection H2 as <- _. cbn [r_id]. apply next_rowid_above_seq.
Qed.

Lemma create_then_delete_review_witness :
  reviews (snd (delete_review (snd (post_api_reviews 101 naruto_db john_review)) 1))
  = reviews naruto_db.
Proof.
  assert (H : post_api_reviews 101 naruto_db john_review
              = (Ok (mk_review_row 1 1 "John" (19 # 2) (Some "Amazing anime")
                       "watched" 101),
                 snd (post_api_reviews 101 naruto_db john_review)))
    by reflexivity.
  destruct (create_then_delete_review _ _ _ _ _ H) as [Hrs _].
  exact Hrs.
Defined.

(** X21: deleting a Title right after its creation restores the tables
    as they were; the title string is free again, and creating it anew
    hands out a larger id. *)
Theorem create_then_delete_anime :
  forall (now : timestamp) (db db' : database) (b : AnimeCreate.body)
         (resp : AnimeResponse.t),
    post_api_anime now db b = (Ok resp, db') ->
    let db'' := snd (delete_anime db' (AnimeResponse.id resp)) in
    anime db'' = anime db
    /\ reviews db'' = reviews db
    /\ (forall now2,
          exists resp2 db3,
            post_api_anime now2 db'' b = (Ok resp2, db3)
            /\ AnimeResponse.title resp2 = AnimeResponse.title resp
            /\ AnimeResponse.id resp < AnimeResponse.id resp2).
Proof.
  intros now db db' b resp H db''. unfold post_api_anime, AnimeCreate.parse in *.
  destruct (AnimeCreate.body_title b) as [t|]; [|discriminate].
  destruct (Sql.title_taken t db) eqn:E.
  { rewrite create_anime_taken in H by exact E. discriminate. }
  rewrite create_anime_fresh in H by exact E.
  injection H as <- <-. subst db''. rewrite delete_anime_storage.
  cbn [AnimeResponse.id a_id].
  set (id := Sql.next_rowid (seq_anime db) (map a_id (anime db))).
  set (row := mk_anime_row id t None now).
  unfold Sql.delete_anime. cbn [anime reviews seq_anime seq_reviews get_db foreign_keys].
  cbn [andb].
  assert (Has : filter (fun a => negb (a_id a =? id)) (anime db ++ [row]) = anime db).
  { apply (delete_appended a_id (anime db) row). intros x Hx.
    apply next_rowid_fresh. now apply in_map. }
  rewrite Has. split; [reflexivity|]. split; [reflexivity|].
  intros now2.
  set (db2 := mk_database (anime db) (reviews db) id (seq_reviews db)).
  assert (E2 : Sql.title_taken t db2 = false) by exact E.
  rewrite (create_anime_fresh now2 db2 t E2).
  eexists; eexists. split; [reflexivity|]. cbn [AnimeResponse.title AnimeResponse.id].
  split; [reflexivity|]. apply next_rowid_above_seq.
Qed.

Lemma create_then_delete_anime_witness :
  anime (snd (delete_anime (snd (post_api_anime 200 naruto_db
                                   (AnimeCreate.mk_body (Some "Bleach") []))) 2))
  = anime naruto_db.
Proof.
  assert (H : post_api_anime 200 naruto_db (AnimeCreate.mk_body (Some "Bleach") [])
              = (Ok (AnimeResponse.mk 2 "Bleach" None None 0 None None 200),
                 snd (post_api_anime 200 naruto_db
                        (AnimeCreate.mk_body (Some "Bleach") []))))
    by reflexivity.
  destruct (create_then_delete_anime _ _ _ _ _ H) as [Has _].
  exact Has.
Defined.
